(** * autodunders: injected [__eq__] and [__repr__]

    A shallow embedding of [src/autodunders.py].  The Python objects the
    module touches (classes, instances, modules, the behaviour registry) live
    in an explicit [state]; every function of the module is a Rocq function
    over that state, and a Python exception is a [Raise] result. *)

From Stdlib Require Import List String Ascii ZArith Bool Arith Lia DecimalString.
Import ListNotations.
Open Scope string_scope.
Open Scope list_scope.

(** ** Results and exceptions *)

Definition cid := nat.   (* identity of a class object *)
Definition mid := nat.   (* identity of a module object *)

(** Function objects, compared by identity. *)
Inductive func : Type :=
| ObjectSlot (name : string)   (* the slot wrapper [object.<name>] *)
| Autoeq                       (* [autodunders.autoeq] *)
| Autorepr                     (* [autodunders.autorepr] *)
| UserFun (id : nat).          (* any other function object *)

(** The Python values that occur as attribute values. *)
Inductive value : Type :=
| VInt (z : Z)
| VStr (s : string)
| VNone
| VFun (f : func)
| VClass (c : cid)
| VModule (m : mid)
| VMember.   (* the member descriptor a class holds for one of its slots *)

Inductive exn : Type :=
| TypeError (v : value)
| KeyError (k : string)
| AttributeError (name : string)
| RecursionError.

Inductive result (A : Type) : Type :=
| Ok (a : A)
| Raise (e : exn).
Arguments Ok {A} a.
Arguments Raise {A} e.

Definition bind {A B} (r : result A) (k : A -> result B) : result B :=
  match r with
  | Ok a => k a
  | Raise e => Raise e
  end.

Notation "x <- r ;; k" := (bind r (fun x => k))
  (at level 61, r at next level, right associativity).

Fixpoint mapM {A B} (f : A -> result B) (l : list A) : result (list B) :=
  match l with
  | [] => Ok []
  | a :: l' => b <- f a ;; bs <- mapM f l' ;; Ok (b :: bs)
  end.

(** ** Insertion-ordered dictionaries

    A Python [dict] keeps its keys in insertion order; assigning to a key
    that is present replaces the value where it stands. *)

Section ODict.
Context {V : Type}.

Definition odict := list (string * V).

Fixpoint od_get (k : string) (d : odict) : option V :=
  match d with
  | [] => None
  | (k', v) :: d' => if String.eqb k k' then Some v else od_get k d'
  end.

Fixpoint od_set (k : string) (v : V) (d : odict) : odict :=
  match d with
  | [] => [(k, v)]
  | (k', v') :: d' =>
      if String.eqb k k' then (k', v) :: d' else (k', v') :: od_set k v d'
  end.

Definition od_keys (d : odict) : list string := map fst d.
Definition od_values (d : odict) : list V := map snd d.

(** [d.update(items)] *)
Definition od_update (d : odict) (items : list (string * V)) : odict :=
  fold_left (fun acc kv => od_set (fst kv) (snd kv) acc) items d.

(** [dict(items)] *)
Definition od_of_pairs (items : list (string * V)) : odict :=
  od_update [] items.
End ODict.
Arguments odict V : clear implicits.

(** ** The object store *)

(** A class: its name, the proper ancestors of its method resolution order
    (the class itself comes first and is left out), its [__slots__] entry when
    it declares one, and the rest of its namespace in dictionary order. *)
Record pyclass : Type := {
  cname : string;
  cmro : list cid;
  cslots : option (list string);
  cdict : odict value
}.

(** An instance: its class, its [__dict__] (empty when it has none) and the
    values stored in its slots. *)
Record pyobject : Type := {
  oclass : cid;
  odict_ : odict value;
  oslots : odict value
}.

Record pymodule : Type := {
  mdict : odict value
}.

(** The store: every class and module object by identity, [sys.modules]
    (imported modules by name) and the module global [_dunders_to_funcs]. *)
Record state : Type := {
  classes : cid -> pyclass;
  modules : mid -> pymodule;
  sys_modules : odict mid;
  dunders_to_funcs : odict value
}.

Definition object_cid : cid := 0.

(** ** Attribute access of the Python runtime *)

Definition value_eq_dec (x y : value) : {x = y} + {x <> y}.
Proof.
  repeat decide equality.
Defined.

(** [x is y] and, for the values of the model (integers, strings, [None]
    and objects compared by identity), [x == y]. *)
Definition py_is (x y : value) : bool :=
  if value_eq_dec x y then true else false.

(** [x != y] *)
Definition py_ne (x y : value) : bool := negb (py_is x y).

Definition mro (s : state) (c : cid) : list cid := c :: cmro (classes s c).

Fixpoint mro_lookup (s : state) (l : list cid) (k : string) : option value :=
  match l with
  | [] => None
  | c :: l' =>
      match od_get k (cdict (classes s c)) with
      | Some v => Some v
      | None => mro_lookup s l' k
      end
  end.

Definition type_lookup (s : state) (c : cid) (k : string) : option value :=
  mro_lookup s (mro s c) k.

(** [getattr(cls, k)] for a class object.  The values of the model are plain
    values, functions and member descriptors, which a class gives back as
    they are stored; [classmethod] and [staticmethod] objects and the
    attributes of the metaclass are outside the model. *)
Definition getattr_class (s : state) (c : cid) (k : string) : result value :=
  match type_lookup s c k with
  | Some v => Ok v
  | None => Raise (AttributeError k)
  end.

(** What the instance itself stores under [k]: a slot value when its type
    resolves [k] to a member descriptor, an entry of [__dict__] otherwise. *)
Definition own_value (s : state) (o : pyobject) (k : string) : option value :=
  match type_lookup s (oclass o) k with
  | Some VMember => od_get k (oslots o)
  | _ => od_get k (odict_ o)
  end.

(** [getattr(obj, k)] for an instance: a data descriptor of the type first
    (the member descriptor of a slot), then the instance dictionary, then a
    plain attribute of the type, which is returned as it is stored. *)
Definition getattr (s : state) (o : pyobject) (k : string) : result value :=
  match type_lookup s (oclass o) k with
  | Some VMember =>
      match od_get k (oslots o) with
      | Some v => Ok v
      | None => Raise (AttributeError k)
      end
  | Some v =>
      match od_get k (odict_ o) with
      | Some w => Ok w
      | None => Ok v
      end
  | None =>
      match od_get k (odict_ o) with
      | Some w => Ok w
      | None => Raise (AttributeError k)
      end
  end.

(** [obj.__slots__], when [hasattr(obj, '__slots__')]: the declaration of the
    first class of the method resolution order that has one. *)
Fixpoint first_slots (s : state) (l : list cid) : option (list string) :=
  match l with
  | [] => None
  | c :: l' =>
      match cslots (classes s c) with
      | Some sl => Some sl
      | None => first_slots s l'
      end
  end.

Definition slots_of (s : state) (o : pyobject) : option (list string) :=
  first_slots s (mro s (oclass o)).

(** [isinstance(obj, c)] *)
Definition isinstance (s : state) (o : pyobject) (c : cid) : bool :=
  existsb (Nat.eqb c) (mro s (oclass o)).

(** [setattr(cls, k, v)] on a class object.  [object], the one built-in
    class of the model, refuses it with a [TypeError]; every other class of
    the store is a class made by a class statement, whose attributes can be
    set. *)
Definition set_class_dict (k : string) (v : value) (c : pyclass) : pyclass :=
  {| cname := cname c; cmro := cmro c; cslots := cslots c;
     cdict := od_set k v (cdict c) |}.

Definition store_class_attr (c : cid) (k : string) (v : value) (s : state)
    : state :=
  {| classes := fun c' => if Nat.eqb c' c then set_class_dict k v (classes s c)
                          else classes s c';
     modules := modules s;
     sys_modules := sys_modules s;
     dunders_to_funcs := dunders_to_funcs s |}.

Definition setattr_class (c : cid) (k : string) (v : value) (s : state)
    : state * result unit :=
  if Nat.eqb c object_cid then (s, Raise (TypeError (VClass c)))
  else (store_class_attr c k v s, Ok tt).

(** ** The module [autodunders] *)

Definition default_dunders : list string := ["__repr__"; "__eq__"].

(** The body of [add_dunders_to_class]: [for dunder in dunders:
    setattr(cls, dunder, callbacks[dunder])]. *)
Fixpoint set_dunders (cls : cid) (callbacks : odict value)
    (dunders : list string) (s : state) : state * result unit :=
  match dunders with
  | [] => (s, Ok tt)
  | dunder :: rest =>
      match od_get dunder callbacks with
      | None => (s, Raise (KeyError dunder))
      | Some f =>
          match setattr_class cls dunder f s with
          | (s1, Raise e) => (s1, Raise e)
          | (s1, Ok _) => set_dunders cls callbacks rest s1
          end
      end
  end.

(** The closure [dunder_decorator]; [None] stands for the defaults, and the
    default mapping is the registry as it is when the closure runs. *)
Definition dunder_decorator (dunders : option (list string))
    (callbacks : option (odict value)) (cls : cid) (s : state)
    : state * result cid :=
  let dunders := match dunders with Some d => d | None => default_dunders end in
  let callbacks :=
    match callbacks with Some c => c | None => dunders_to_funcs s end in
  let '(s', r) := set_dunders cls callbacks dunders s in
  (s', _ <- r ;; Ok cls).

Inductive add_dunders_ret : Type :=
| Decorator (dec : cid -> state -> state * result cid)
| Decorated (cls : cid).

Definition add_dunders (cls_ : option cid) (dunders : option (list string))
    (callbacks : option (odict value)) (s : state)
    : state * result add_dunders_ret :=
  match cls_ with
  | None => (s, Ok (Decorator (dunder_decorator dunders callbacks)))
  | Some c =>
      let '(s', r) := dunder_decorator dunders callbacks c s in
      (s', c' <- r ;; Ok (Decorated c'))
  end.

Definition register (name : string) (f : value) (s : state) : state :=
  {| classes := classes s;
     modules := modules s;
     sys_modules := sys_modules s;
     dunders_to_funcs := od_set name f (dunders_to_funcs s) |}.

(** A [for] loop whose body may raise. *)
Fixpoint for_each {A} (step : A -> state -> state * result unit)
    (l : list A) (s : state) : state * result unit :=
  match l with
  | [] => (s, Ok tt)
  | x :: l' =>
      match step x s with
      | (s1, Raise e) => (s1, Raise e)
      | (s1, Ok _) => for_each step l' s1
      end
  end.

(** One turn of the loop of [_module_attrs] over [module.__dict__.values()],
    with the body of the consumer's loop run where the generator yields;
    [submodule] is the nested generator. *)
Definition visit (submodule : mid -> state -> state * result unit)
    (module : mid) (pred : value -> state -> result bool) (recurse : bool)
    (body : value -> state -> state * result unit)
    (obj : value) (s : state) : state * result unit :=
  match pred obj s with
  | Raise e => (s, Raise e)
  | Ok b =>
      match (if b then body obj s else (s, Ok tt)) with
      | (s1, Raise e) => (s1, Raise e)
      | (s1, Ok _) =>
          match obj with
          | VModule sub =>
              if recurse then
                match od_get "__package__" (mdict (modules s1 sub)) with
                | None => (s1, Raise (AttributeError "__package__"))
                | Some pkg =>
                    if py_is pkg (VModule module) then submodule sub s1
                    else (s1, Ok tt)
                end
              else (s1, Ok tt)
          | _ => (s1, Ok tt)
          end
      end
  end.

(** [for obj in _module_attrs(module, pred, recurse): body(obj)].  The
    generator is lazy, so [pred] sees every [setattr] the loop body has done
    for the objects yielded before; [body] is therefore threaded through the
    traversal.  [fuel] bounds the depth of nested generators. *)
Fixpoint _module_attrs (fuel : nat) (module : mid)
    (pred : value -> state -> result bool) (recurse : bool)
    (body : value -> state -> state * result unit) (s : state)
    : state * result unit :=
  match fuel with
  | O => (s, Raise RecursionError)
  | S fuel' =>
      for_each
        (visit (fun sub => _module_attrs fuel' sub pred recurse body)
           module pred recurse body)
        (od_values (mdict (modules s module))) s
  end.

(** The closure [pred] of [_add_to_objects]. *)
Definition pred_default (dunder : string) (obj : value) (s : state)
    : result bool :=
  match obj with
  | VClass c =>
      mine <- getattr_class s c dunder ;;
      base <- getattr_class s object_cid dunder ;;
      Ok (py_is mine base)
  | _ => Ok false
  end.

(** The loop body of [_add_to_objects]. *)
Definition inject (dunder : string) (callbacks : odict value) (obj : value)
    (s : state) : state * result unit :=
  match obj with
  | VClass c =>
      match od_get dunder callbacks with
      | None => (s, Raise (KeyError dunder))
      | Some f => setattr_class c dunder f s
      end
  | _ => (s, Ok tt)
  end.

Definition _add_to_objects (fuel : nat) (module : mid) (dunder : string)
    (callbacks : odict value) (recurse : bool) (s : state)
    : state * result unit :=
  _module_attrs fuel module (pred_default dunder) recurse
    (inject dunder callbacks) s.

(** [for dunder in dunders: _add_to_objects(module, dunder, callbacks, recurse)] *)
Fixpoint add_each (fuel : nat) (module : mid) (callbacks : odict value)
    (recurse : bool) (dunders : list string) (s : state)
    : state * result unit :=
  match dunders with
  | [] => (s, Ok tt)
  | dunder :: rest =>
      match _add_to_objects fuel module dunder callbacks recurse s with
      | (s1, Raise e) => (s1, Raise e)
      | (s1, Ok _) => add_each fuel module callbacks recurse rest s1
      end
  end.

(** The [types.ModuleType] overload. *)
Definition add_dunders_to_module_obj (fuel : nat) (module : mid)
    (dunders : option (list string)) (callbacks : option (odict value))
    (recurse : bool) (s : state) : state * result unit :=
  let dunders := match dunders with Some d => d | None => default_dunders end in
  let callbacks :=
    match callbacks with Some c => c | None => dunders_to_funcs s end in
  add_each fuel module callbacks recurse dunders s.

(** [add_dunders_to_module], dispatched on the type of its first argument:
    the [str] overload goes through [sys.modules], the base implementation
    raises [TypeError(module)]. *)
Definition add_dunders_to_module (fuel : nat) (module : value)
    (dunders : option (list string)) (callbacks : option (odict value))
    (recurse : bool) (s : state) : state * result unit :=
  match module with
  | VStr name =>
      match od_get name (sys_modules s) with
      | None => (s, Raise (KeyError name))
      | Some m => add_dunders_to_module_obj fuel m dunders callbacks recurse s
      end
  | VModule m => add_dunders_to_module_obj fuel m dunders callbacks recurse s
  | _ => (s, Raise (TypeError module))
  end.

Definition _obj_attrs (s : state) (obj : pyobject) : list string :=
  match slots_of s obj with
  | Some attrs => attrs
  | None => od_keys (odict_ obj)
  end.

Definition _obj_attr_vals (s : state) (obj : pyobject) : result (list value) :=
  mapM (getattr s obj) (_obj_attrs s obj).

(** [attr[:2] == '__' and attr[-2:] == '__'] *)
Definition is_dunder (attr : string) : bool :=
  String.eqb (substring 0 2 attr) "__"
  && String.eqb (substring (String.length attr - 2) 2 attr) "__".

Definition _cls_attrs (s : state) (obj : pyobject) : list string :=
  filter (fun attr => negb (is_dunder attr))
    (od_keys (cdict (classes s (oclass obj)))).

Definition _cls_attr_vals (s : state) (obj : pyobject) : result (list value) :=
  mapM (getattr_class s (oclass obj)) (_cls_attrs s obj).

(** The loop of [autoeq] over [zip(...)]. *)
Fixpoint eq_loop (ss os : list value) : bool :=
  match ss, os with
  | s :: ss', o :: os' => if py_ne s o then false else eq_loop ss' os'
  | _, _ => true
  end.

Definition autoeq (s : state) (self other : pyobject) : result bool :=
  if negb (isinstance s other (oclass self)) then Ok false
  else
    ss <- _obj_attr_vals s self ;;
    os <- _obj_attr_vals s other ;;
    Ok (eq_loop ss os).

Section Repr.
(** The text of a value that is neither a number, a string nor [None]
    depends on the address of the object. *)
Variable other_str : value -> string.

(** [f'{val}'] *)
Definition py_str (val : value) : string :=
  match val with
  | VInt z => NilZero.string_of_int (Z.to_int z)
  | VStr t => t
  | VNone => "None"
  | _ => other_str val
  end.

Definition item_str (item : string * value) : string :=
  (fst item ++ "=" ++ py_str (snd item))%string.

Definition autorepr (s : state) (self : pyobject) : result string :=
  let ret := cname (classes s (oclass self)) in
  let ret := (ret ++ "(")%string in
  let cls_attrs := _cls_attrs s self in
  cls_vals <- _cls_attr_vals s self ;;
  let obj_attrs := _obj_attrs s self in
  obj_vals <- _obj_attr_vals s self ;;
  let combined_dict := od_of_pairs (combine cls_attrs cls_vals) in
  let combined_dict :=
    od_update combined_dict (od_of_pairs (combine obj_attrs obj_vals)) in
  let ret :=
    (ret ++ String.concat ", " (map item_str combined_dict))%string in
  Ok (ret ++ ")")%string.
End Repr.

(** The initial contents of [_dunders_to_funcs]. *)
Definition initial_registry : odict value :=
  [("__eq__", VFun Autoeq); ("__repr__", VFun Autorepr)].

(** Whether the loop of [_add_to_objects] selects [obj] in state [s]. *)
Definition selects (dunder : string) (s : state) (obj : value) : bool :=
  match pred_default dunder obj s with
  | Ok true => true
  | _ => false
  end.

(** [s] comes from [s0] by storing [f] under [dunder] in classes of [scope]
    that resolved [dunder] to [base] in [s0]; nothing else differs. *)
Definition injected (scope : cid -> Prop) (dunder : string) (f base : value)
    (s0 s : state) : Prop :=
  modules s = modules s0
  /\ sys_modules s = sys_modules s0
  /\ dunders_to_funcs s = dunders_to_funcs s0
  /\ forall c,
       classes s c = classes s0 c
       \/ (scope c /\ c <> object_cid
           /\ type_lookup s0 c dunder = Some base
           /\ classes s c = set_class_dict dunder f (classes s0 c)).

(** [s'] differs from [s] at most in what the classes other than [object]
    bind to the given names. *)
Definition only_changes (names : list string) (s s' : state) : Prop :=
  modules s' = modules s
  /\ sys_modules s' = sys_modules s
  /\ dunders_to_funcs s' = dunders_to_funcs s
  /\ classes s' object_cid = classes s object_cid
  /\ forall c,
       cname (classes s' c) = cname (classes s c)
       /\ cmro (classes s' c) = cmro (classes s c)
       /\ cslots (classes s' c) = cslots (classes s c)
       /\ forall k, ~ In k names ->
            od_get k (cdict (classes s' c)) = od_get k (cdict (classes s c)).


(** ** The fields of a representation, as the specification words them *)



(** ** Fixtures: the classes and modules of the test suite *)

Module Fixtures.

Definition object_class : pyclass :=
  {| cname := "object"; cmro := []; cslots := None;
     cdict := [("__repr__", VFun (ObjectSlot "__repr__"));
               ("__eq__", VFun (ObjectSlot "__eq__"));
               ("__hash__", VFun (ObjectSlot "__hash__"))] |}.

Definition plain_class (name : string) (ancestors : list cid)
    (namespace : odict value) : pyclass :=
  {| cname := name; cmro := ancestors; cslots := None; cdict := namespace |}.

Definition no_module : pymodule := {| mdict := [] |}.

Definition mk_state (cs : list pyclass) (ms : list pymodule)
    (sysm : odict mid) : state :=
  {| classes := fun c => nth c cs object_class;
     modules := fun m => nth m ms no_module;
     sys_modules := sysm;
     dunders_to_funcs := initial_registry |}.

Definition instance (c : cid) (fields : odict value) : pyobject :=
  {| oclass := c; odict_ := fields; oslots := [] |}.

Definition slotted (c : cid) (fields : odict value) : pyobject :=
  {| oclass := c; odict_ := []; oslots := fields |}.

Definition init_fn : value := VFun (UserFun 1).

(** [test_add_to_class.py]: class 1 is [test_basic_decorator]'s [Foo],
    class 2 is [Foo1] of [test_ne_with_no_auto], class 3 has the class
    attributes [a = 1, b = 2], class 4 declares [__slots__ = 'a', 'b']. *)
Definition test_classes : list pyclass :=
  [ object_class;
    plain_class "Foo" [0] [("__init__", init_fn)];
    plain_class "Foo1" [0] [("__init__", init_fn)];
    plain_class "Foo" [0]
      [("a", VInt 1); ("b", VInt 2); ("__init__", init_fn)];
    {| cname := "Foo"; cmro := [0]; cslots := Some ["a"; "b"];
       cdict := [("__init__", init_fn); ("a", VMember); ("b", VMember)] |} ].

(** [fakemod] of [test_add_to_module.py] binds the class [Foo]. *)
Definition fakemod : pymodule :=
  {| mdict := [("__name__", VStr "fakemod"); ("__package__", VStr "");
               ("Foo", VClass 1)] |}.

Definition test_state : state :=
  mk_state test_classes [fakemod] [("fakemod", 0)].

Definition ab (a b : Z) : odict value := [("a", VInt a); ("b", VInt b)].

Definition no_str (_ : value) : string := "<object>".

(** A class and a subclass of it: class 1 is [Base], class 2 is
    [Derived(Base)]; both are bound in module 0, [Base] first. *)
Definition hier_classes : list pyclass :=
  [ object_class;
    plain_class "Base" [0] [("__init__", init_fn)];
    plain_class "Derived" [1; 0] [] ].

Definition hier_module : pymodule :=
  {| mdict := [("__name__", VStr "hier"); ("__package__", VStr "");
               ("Base", VClass 1); ("Derived", VClass 2)] |}.

Definition hier_state : state :=
  mk_state hier_classes [hier_module] [("hier", 0)].

Definition base_inst : pyobject := instance 1 (ab 1 2).
Definition derived_inst : pyobject := instance 2 (ab 1 2).

Definition abc_inst : pyobject :=
  instance 1 [("a", VInt 1); ("b", VInt 2); ("c", VInt 3)].
Definition ab_inst : pyobject := instance 1 (ab 1 2).

(** A module whose one class defines its own [__repr__] (class 1). *)
Definition custom_classes : list pyclass :=
  [ object_class;
    plain_class "Custom" [0]
      [("__init__", init_fn); ("__repr__", VFun (UserFun 2))] ].

Definition custom_module : pymodule :=
  {| mdict := [("__name__", VStr "custom"); ("__package__", VStr "");
               ("Custom", VClass 1)] |}.

Definition custom_state : state :=
  mk_state custom_classes [custom_module] [("custom", 0)].

(** The package [pkg] (module 0) and its submodule [pkg.sub] (module 1),
    as the import system sets them up: [__package__] of the submodule is
    the name of the package, and the package binds the submodule under
    [sub].  The submodule defines the class [K] (class 1). *)
Definition pkg_classes : list pyclass :=
  [ object_class; plain_class "K" [0] [("__init__", init_fn)] ].

Definition pkg_module : pymodule :=
  {| mdict := [("__name__", VStr "pkg"); ("__package__", VStr "pkg");
               ("sub", VModule 1)] |}.

Definition sub_module : pymodule :=
  {| mdict := [("__name__", VStr "pkg.sub"); ("__package__", VStr "pkg");
               ("K", VClass 1)] |}.

Definition pkg_state : state :=
  mk_state pkg_classes [pkg_module; sub_module]
    [("pkg", 0); ("pkg.sub", 1)].

(** The same package with [__package__] of the submodule rebound to the
    module object of the package, which no import does. *)
Definition rebound_sub_module : pymodule :=
  {| mdict := [("__name__", VStr "pkg.sub"); ("__package__", VModule 0);
               ("K", VClass 1)] |}.

Definition rebound_state : state :=
  mk_state pkg_classes [pkg_module; rebound_sub_module]
    [("pkg", 0); ("pkg.sub", 1)].

(** A class with [__slots__ = ('x',)] (class 1) and a subclass of it that
    declares no slots (class 2): instances of the subclass have the slot of
    the base class and a [__dict__] as well. *)
Definition slot_classes : list pyclass :=
  [ object_class;
    {| cname := "Point"; cmro := [0]; cslots := Some ["x"];
       cdict := [("__init__", init_fn); ("x", VMember)] |};
    plain_class "Named" [1; 0] [] ].

Definition slot_state : state := mk_state slot_classes [] [].

Definition named_point (fields : odict value) : pyobject :=
  {| oclass := 2; odict_ := fields; oslots := [("x", VInt 1)] |}.




End Fixtures.

(** The assertions of the test suite, evaluated on the model. *)
Module Tests.
Import Fixtures.

Example test_basic_decorator :
  let s := fst (add_dunders (Some 1) None None test_state) in
  autorepr no_str s (instance 1 (ab 1 2)) = Ok "Foo(a=1, b=2)"
  /\ autoeq s (instance 1 (ab 1 2)) (instance 1 (ab 1 2)) = Ok true
  /\ type_lookup s 1 "__repr__" = Some (VFun Autorepr).
Proof. repeat split. Qed.

Example test_ne_objs :
  autoeq test_state (instance 1 (ab 1 2)) (instance 1 (ab 3 4)) = Ok false.
Proof. reflexivity. Qed.

Example test_ne_with_no_auto :
  autoeq test_state (instance 1 (ab 1 2)) (instance 2 (ab 1 2)) = Ok false.
Proof. reflexivity. Qed.

Example test_decorator_with_args :
  let callbacks := [("__repr__", VFun (UserFun 7))] in
  match add_dunders None (Some ["__repr__"]) (Some callbacks) test_state with
  | (_, Ok (Decorator dec)) =>
      type_lookup (fst (dec 1 test_state)) 1 "__repr__" = Some (VFun (UserFun 7))
  | _ => False
  end.
Proof. reflexivity. Qed.

Example test_class_attrs :
  autorepr no_str test_state (instance 3 [("c", VInt 3)])
  = Ok "Foo(a=1, b=2, c=3)".
Proof. reflexivity. Qed.

Example test_obj_attrs_mask_cls_attrs :
  autorepr no_str test_state (instance 3 (ab 3 4)) = Ok "Foo(a=3, b=4)".
Proof. reflexivity. Qed.

Example test_cls_with_slots :
  autorepr no_str test_state (slotted 4 (ab 1 2)) = Ok "Foo(a=1, b=2)"
  /\ autoeq test_state (slotted 4 (ab 1 2)) (slotted 4 (ab 1 2)) = Ok true.
Proof. split; reflexivity. Qed.

Example test_add_by_str :
  let '(s, r) := add_dunders_to_module 1 (VStr "fakemod") None None false
                   test_state in
  r = Ok tt
  /\ type_lookup s 1 "__repr__" = Some (VFun Autorepr)
  /\ type_lookup s 1 "__eq__" = Some (VFun Autoeq).
Proof. repeat split. Qed.

Example test_obj_attrs :
  _obj_attrs test_state (instance 3 (ab 3 4)) = ["a"; "b"]
  /\ _obj_attr_vals test_state (instance 3 (ab 3 4)) = Ok [VInt 3; VInt 4].
Proof. split; reflexivity. Qed.

Example test_cls_attrs :
  _cls_attrs test_state (instance 3 (ab 3 4)) = ["a"; "b"]
  /\ _cls_attr_vals test_state (instance 3 (ab 3 4)) = Ok [VInt 1; VInt 2].
Proof. split; reflexivity. Qed.
End Tests.

(** ** Dictionaries *)

Section ODictFacts.
Context {V : Type}.
Implicit Types (d items : odict V) (k : string) (v : V).

Lemma od_get_set_same k v d : od_get k (od_set k v d) = Some v.
Proof.
  induction d as [|[k' v'] d IH]; simpl.
  - now rewrite String.eqb_refl.
  - destruct (String.eqb k k') eqn:E; simpl; rewrite E; auto.
Qed.

Lemma od_get_set_other k k' v d :
  k <> k' -> od_get k' (od_set k v d) = od_get k' d.
Proof.
  intros Hne. induction d as [|[k0 v0] d IH]; simpl.
  - destruct (String.eqb_spec k' k); congruence.
  - destruct (String.eqb_spec k k0) as [->|Hk]; simpl.
    + destruct (String.eqb_spec k' k0); congruence.
    + now rewrite IH.
Qed.

Lemma od_get_None k d : od_get k d = None <-> ~ In k (od_keys d).
Proof.
  induction d as [|[k' v'] d IH]; simpl.
  - tauto.
  - destruct (String.eqb_spec k k') as [->|Hk].
    + split; [discriminate | tauto].
    + rewrite IH. split; [intros H [E|E]; auto | tauto].
Qed.

Lemma od_get_In k v d :
  NoDup (od_keys d) -> In (k, v) d -> od_get k d = Some v.
Proof.
  induction d as [|[k' v'] d IH]; simpl; [tauto|].
  intros Hnd [E|Hin].
  - inversion E; subst. now rewrite String.eqb_refl.
  - inversion Hnd as [|? ? Hk' Hnd']; subst.
    destruct (String.eqb_spec k k') as [->|Hk]; [|auto].
    exfalso. apply Hk'. change k' with (fst (k', v)).
    now apply in_map.
Qed.

Lemma od_set_fresh k v d : ~ In k (od_keys d) -> od_set k v d = d ++ [(k, v)].
Proof.
  induction d as [|[k' v'] d IH]; simpl; [reflexivity|].
  intros Hk. destruct (String.eqb_spec k k') as [->|Hne]; [tauto|].
  rewrite IH; tauto.
Qed.

Lemma od_keys_set_present k v d :
  In k (od_keys d) -> od_keys (od_set k v d) = od_keys d.
Proof.
  induction d as [|[k' v'] d IH]; simpl; [tauto|].
  intros Hk. destruct (String.eqb_spec k k') as [->|Hne]; simpl; [reflexivity|].
  f_equal. apply IH. destruct Hk; congruence.
Qed.


End ODictFacts.

(** ** Attribute access *)

Lemma py_is_true x y : py_is x y = true <-> x = y.
Proof.
  unfold py_is. destruct (value_eq_dec x y); split; congruence.
Qed.

Lemma py_ne_false x y : py_ne x y = false <-> x = y.
Proof.
  unfold py_ne. rewrite negb_false_iff. apply py_is_true.
Qed.

Lemma py_ne_true x y : py_ne x y = true <-> x <> y.
Proof.
  unfold py_ne, py_is. destruct (value_eq_dec x y); simpl; split; congruence.
Qed.

Lemma isinstance_In s o c : isinstance s o c = true <-> In c (mro s (oclass o)).
Proof.
  unfold isinstance. rewrite existsb_exists. split.
  - intros [x [Hin Heq]]. apply Nat.eqb_eq in Heq. now subst.
  - intros Hin. exists c. split; [assumption | apply Nat.eqb_refl].
Qed.

Lemma isinstance_not_In s o c :
  isinstance s o c = false <-> ~ In c (mro s (oclass o)).
Proof.
  rewrite <- isinstance_In. destruct (isinstance s o c); split; congruence.
Qed.

(** A value the instance stores itself is the value [getattr] returns. *)
Lemma getattr_own_value s o k v : own_value s o k = Some v -> getattr s o k = Ok v.
Proof.
  unfold own_value, getattr.
  destruct (type_lookup s (oclass o) k) as [[]|]; intros ->; reflexivity.
Qed.

Lemma mapM_Ok {A B} (f : A -> result B) (g : A -> option B) l vs :
  (forall a v, g a = Some v -> f a = Ok v) ->
  map g l = map Some vs -> mapM f l = Ok vs.
Proof.
  intros Hfg. revert vs. induction l as [|a l IH]; intros [|v vs] H;
    simpl in *; try discriminate; [reflexivity|].
  injection H as Ha Hl. rewrite (Hfg _ _ Ha). simpl. now rewrite (IH _ Hl).
Qed.

Lemma obj_attr_vals_own s o vs :
  map (own_value s o) (_obj_attrs s o) = map Some vs ->
  _obj_attr_vals s o = Ok vs.
Proof.
  apply mapM_Ok. intros a v. apply getattr_own_value.
Qed.


(** ** The comparison loop *)

Lemma eq_loop_nil_r ss : eq_loop ss [] = true.
Proof. now destruct ss. Qed.

Lemma eq_loop_true ss os :
  eq_loop ss os = true <->
  (forall i x y, nth_error ss i = Some x -> nth_error os i = Some y -> x = y).
Proof.
  revert os. induction ss as [|x ss IH]; intros os.
  - simpl. split; [|reflexivity]. intros _ [|i] ? ? H; discriminate H.
  - destruct os as [|y os]; simpl.
    + split; [|reflexivity]. intros _ [|i] ? ? _ H; discriminate H.
    + destruct (py_ne x y) eqn:E.
      * split; [discriminate|]. intros H. apply py_ne_true in E.
        exfalso. apply E. now apply (H 0).
      * apply py_ne_false in E. subst y. rewrite IH. split.
        -- intros H [|i] a b; simpl; [congruence | apply H].
        -- intros H i a b. apply (H (S i)).
Qed.

(** [false] is returned at the first position whose two values differ. *)
Lemma eq_loop_false ss os :
  eq_loop ss os = false <->
  exists i x y,
    nth_error ss i = Some x /\ nth_error os i = Some y /\ x <> y
    /\ forall j, j < i -> nth_error ss j = nth_error os j.
Proof.
  revert os. induction ss as [|x ss IH]; intros os.
  - simpl. split; [discriminate|]. intros (i & a & b & H & _).
    destruct i; discriminate H.
  - destruct os as [|y os]; simpl.
    + split; [discriminate|]. intros (i & a & b & _ & H & _).
      destruct i; discriminate H.
    + destruct (py_ne x y) eqn:E.
      * split; [|reflexivity]. intros _. apply py_ne_true in E.
        exists 0, x, y. repeat split; auto. intros j Hj. lia.
      * apply py_ne_false in E. subst y. rewrite IH. split.
        -- intros (i & a & b & Ha & Hb & Hne & Hlt).
           exists (S i), a, b. repeat split; auto.
           intros [|j] Hj; simpl; [reflexivity | apply Hlt; lia].
        -- intros (i & a & b & Ha & Hb & Hne & Hlt).
           destruct i as [|i]; simpl in *; [congruence|].
           exists i, a, b. repeat split; auto.
           intros j Hj. apply (Hlt (S j)). lia.
Qed.

Lemma eq_loop_firstn ss os :
  let n := Nat.min (List.length ss) (List.length os) in
  eq_loop ss os = eq_loop (firstn n ss) (firstn n os).
Proof.
  revert os. induction ss as [|x ss IH]; intros os; simpl; [reflexivity|].
  destruct os as [|y os]; simpl; [reflexivity|].
  destruct (py_ne x y); [reflexivity | apply IH].
Qed.

Lemma eq_loop_refl ss : eq_loop ss ss = true.
Proof.
  apply eq_loop_true. congruence.
Qed.

Lemma eq_loop_prefix_l ss extra : eq_loop (ss ++ extra) ss = true.
Proof.
  induction ss as [|x ss IH]; simpl; [apply eq_loop_nil_r|].
  assert (E : py_ne x x = false) by now apply py_ne_false.
  now rewrite E.
Qed.

Lemma eq_loop_prefix_r ss extra : eq_loop ss (ss ++ extra) = true.
Proof.
  induction ss as [|x ss IH]; simpl; [reflexivity|].
  assert (E : py_ne x x = false) by now apply py_ne_false.
  now rewrite E.
Qed.

Lemma autoeq_checked s a b :
  isinstance s b (oclass a) = true ->
  autoeq s a b =
    (ss <- _obj_attr_vals s a ;; os <- _obj_attr_vals s b ;; Ok (eq_loop ss os)).
Proof.
  unfold autoeq. now intros ->.
Qed.

(** ** Default equality *)

(** C1, as stated, fails: an instance of a proper subclass of [type(a)]
    passes the type check of [autoeq] and is compared field by field. *)
Lemma autoeq_accepts_subclass_instance :
  oclass Fixtures.derived_inst <> oclass Fixtures.base_inst
  /\ In (oclass Fixtures.base_inst)
       (cmro (classes Fixtures.hier_state (oclass Fixtures.derived_inst)))
  /\ autoeq Fixtures.hier_state Fixtures.base_inst Fixtures.derived_inst
     = Ok true.
Proof.
  split; [discriminate|]. split; [simpl; auto | reflexivity].
Qed.

(** C1, amended: [autoeq a b] returns [False], before any field is read,
    exactly when [type(a)] is not in the method resolution order of
    [type(b)]; when [type(b)] is [type(a)] or one of its subclasses the check
    passes and the fields are compared.  The check is not symmetric. *)
Theorem autoeq_type_check (s : state) (a b : pyobject) :
  (~ In (oclass a) (mro s (oclass b)) -> autoeq s a b = Ok false)
  /\ (In (oclass a) (mro s (oclass b)) ->
      autoeq s a b =
        (ss <- _obj_attr_vals s a ;; os <- _obj_attr_vals s b ;;
         Ok (eq_loop ss os))).
Proof.
  split; intros H.
  - apply isinstance_not_In in H. unfold autoeq. now rewrite H.
  - apply isinstance_In in H. now apply autoeq_checked.
Qed.

Lemma autoeq_type_check_witness :
  autoeq Fixtures.hier_state Fixtures.derived_inst Fixtures.base_inst = Ok false
  /\ autoeq Fixtures.hier_state Fixtures.base_inst Fixtures.derived_inst
     = Ok true.
Proof.
  split.
  - apply (proj1 (autoeq_type_check Fixtures.hier_state Fixtures.derived_inst
                    Fixtures.base_inst)).
    simpl. intros [H|[H|[]]]; discriminate H.
  - rewrite (proj2 (autoeq_type_check Fixtures.hier_state Fixtures.base_inst
                      Fixtures.derived_inst)).
    + reflexivity.
    + simpl. auto.
Defined.

(** C9: when the own-field lists of two instances accepted by the type check
    differ in length, [autoeq] looks only at the first [min] values of each
    and ignores the rest of the longer list; an instance whose values extend
    those of the other compares equal to it. *)
Theorem autoeq_ignores_extra_fields
    (s : state) (a b : pyobject) (va vb : list value) :
  isinstance s b (oclass a) = true ->
  _obj_attr_vals s a = Ok va ->
  _obj_attr_vals s b = Ok vb ->
  let n := Nat.min (List.length va) (List.length vb) in
  autoeq s a b = Ok (eq_loop (firstn n va) (firstn n vb))
  /\ (forall extra, va = vb ++ extra -> autoeq s a b = Ok true)
  /\ (forall extra, vb = va ++ extra -> autoeq s a b = Ok true).
Proof.
  intros Hty Ha Hb n.
  assert (E : autoeq s a b = Ok (eq_loop va vb)).
  { rewrite autoeq_checked by assumption. now rewrite Ha, Hb. }
  rewrite E. repeat split.
  - f_equal. apply eq_loop_firstn.
  - intros extra ->. f_equal. apply eq_loop_prefix_l.
  - intros extra ->. f_equal. apply eq_loop_prefix_r.
Qed.

Lemma autoeq_ignores_extra_fields_witness :
  List.length (_obj_attrs Fixtures.test_state Fixtures.abc_inst) = 3
  /\ List.length (_obj_attrs Fixtures.test_state Fixtures.ab_inst) = 2
  /\ autoeq Fixtures.test_state Fixtures.abc_inst Fixtures.ab_inst = Ok true
  /\ autoeq Fixtures.test_state Fixtures.ab_inst Fixtures.abc_inst = Ok true.
Proof.
  split; [reflexivity|]. split; [reflexivity|]. split.
  - apply (proj1 (proj2 (autoeq_ignores_extra_fields Fixtures.test_state
             Fixtures.abc_inst Fixtures.ab_inst
             [VInt 1; VInt 2; VInt 3] [VInt 1; VInt 2]
             eq_refl eq_refl eq_refl)) [VInt 3]).
    reflexivity.
  - apply (proj2 (proj2 (autoeq_ignores_extra_fields Fixtures.test_state
             Fixtures.ab_inst Fixtures.abc_inst
             [VInt 1; VInt 2] [VInt 1; VInt 2; VInt 3]
             eq_refl eq_refl eq_refl)) [VInt 3]).
    reflexivity.
Defined.

(** ** Merging class-level and instance-level fields *)

Lemma existsb_eqb_In k l : existsb (String.eqb k) l = true <-> In k l.
Proof.
  rewrite existsb_exists. split.
  - intros [x [Hin Heq]]. apply String.eqb_eq in Heq. now subst.
  - intros Hin. exists k. split; [assumption | apply String.eqb_refl].
Qed.

Lemma existsb_eqb_not_In k l : existsb (String.eqb k) l = false <-> ~ In k l.
Proof.
  rewrite <- existsb_eqb_In. destruct (existsb _ l); split; congruence.
Qed.

Section Merge.
Context {V : Type}.
Implicit Types (d c o : odict V) (k : string) (v : V).










End Merge.







(** ** Default representation *)




Ltac nodup_strings :=
  repeat (constructor; [simpl; intuition discriminate|]); constructor.



(** ** Injection into one class *)

Lemma store_class_attr_same c k v s :
  classes (store_class_attr c k v s) c = set_class_dict k v (classes s c).
Proof.
  simpl. now rewrite Nat.eqb_refl.
Qed.

Lemma store_class_attr_other c c' k v s :
  c' <> c -> classes (store_class_attr c k v s) c' = classes s c'.
Proof.
  intros H. simpl. apply Nat.eqb_neq in H. now rewrite H.
Qed.

Lemma store_class_attr_get c k v s k' :
  od_get k' (cdict (classes (store_class_attr c k v s) c))
  = if String.eqb k' k then Some v else od_get k' (cdict (classes s c)).
Proof.
  rewrite store_class_attr_same. simpl.
  destruct (String.eqb_spec k' k) as [->|Hne].
  - apply od_get_set_same.
  - apply od_get_set_other. congruence.
Qed.

(** Storing [v] under [k] makes [v] what the class resolves [k] to. *)
Lemma store_class_attr_lookup c k v s :
  type_lookup (store_class_attr c k v s) c k = Some v.
Proof.
  unfold type_lookup, mro. cbn [mro_lookup].
  now rewrite store_class_attr_get, String.eqb_refl.
Qed.

Lemma setattr_class_user c k v s :
  c <> object_cid -> setattr_class c k v s = (store_class_attr c k v s, Ok tt).
Proof.
  intros H. unfold setattr_class. apply Nat.eqb_neq in H. now rewrite H.
Qed.

Lemma setattr_class_object k v s :
  setattr_class object_cid k v s = (s, Raise (TypeError (VClass object_cid))).
Proof. reflexivity. Qed.

(** Attribute resolution reads nothing of the state but the classes. *)
Lemma mro_lookup_ext s s' l k :
  (forall c, classes s c = classes s' c) ->
  mro_lookup s l k = mro_lookup s' l k.
Proof.
  intros H. induction l as [|c l IH]; simpl; [reflexivity|].
  now rewrite H, IH.
Qed.

Lemma type_lookup_ext s s' c k :
  (forall c, classes s c = classes s' c) ->
  type_lookup s c k = type_lookup s' c k.
Proof.
  intros H. unfold type_lookup, mro. rewrite H. now apply mro_lookup_ext.
Qed.

Lemma set_dunders_app cls cb pre rest s :
  set_dunders cls cb (pre ++ rest) s
  = match set_dunders cls cb pre s with
    | (s1, Ok _) => set_dunders cls cb rest s1
    | (s1, Raise e) => (s1, Raise e)
    end.
Proof.
  revert s. induction pre as [|d pre IH]; intros s; simpl; [reflexivity|].
  destruct (od_get d cb); [|reflexivity].
  destruct (setattr_class cls d v s) as [s1 [[]|e]]; [apply IH | reflexivity].
Qed.

(** When every name is in the mapping the loop runs to its end, and the
    namespace of the class then holds the mapping's entry for each name;
    nothing else changes. *)
Lemma set_dunders_present cls cb ds s :
  cls <> object_cid ->
  (forall d, In d ds -> od_get d cb <> None) ->
  exists s',
    set_dunders cls cb ds s = (s', Ok tt)
    /\ (forall k, od_get k (cdict (classes s' cls))
                  = if existsb (String.eqb k) ds then od_get k cb
                    else od_get k (cdict (classes s cls)))
    /\ (forall c, c <> cls -> classes s' c = classes s c)
    /\ dunders_to_funcs s' = dunders_to_funcs s.
Proof.
  intros Hcls. revert s. induction ds as [|d ds IH]; intros s Hin; simpl.
  - exists s. repeat split; reflexivity.
  - destruct (od_get d cb) as [f|] eqn:Hd.
    2:{ exfalso. apply (Hin d); [now left | assumption]. }
    rewrite setattr_class_user by assumption.
    destruct (IH (store_class_attr cls d f s)) as (s' & Hrun & Hget & Hoth & Hreg).
    { intros d' Hd'. apply Hin. now right. }
    exists s'. split; [assumption|]. split; [|split].
    + intros k. rewrite Hget, store_class_attr_get.
      destruct (String.eqb_spec k d) as [->|Hne]; simpl; [|reflexivity].
      rewrite Hd. now destruct (existsb (String.eqb d) ds).
    + intros c Hc. rewrite Hoth by assumption.
      now apply store_class_attr_other.
    + now rewrite Hreg.
Qed.

Lemma register_get name f s :
  od_get name (dunders_to_funcs (register name f s)) = Some f.
Proof.
  simpl. apply od_get_set_same.
Qed.

(** A name that is in the registry stays there whatever is registered. *)
Lemma register_keeps name f s k :
  od_get k (dunders_to_funcs s) <> None ->
  od_get k (dunders_to_funcs (register name f s)) <> None.
Proof.
  intros H. simpl. destruct (String.eqb_spec name k) as [->|Hne].
  - now rewrite od_get_set_same.
  - now rewrite od_get_set_other.
Qed.

(** C8: without a behaviour list [add_dunders] sets [__repr__] and [__eq__]
    of a class to the mapping's entries, whatever the class defined before,
    and changes nothing else; the decorator returned by a call without a
    class does the same when it is applied to the class. *)
Theorem add_dunders_default_installs
    (s s0 : state) (c : cid) (callbacks : option (odict value))
    (fr fe : value) :
  let cb := match callbacks with Some m => m | None => dunders_to_funcs s end in
  c <> object_cid ->
  od_get "__repr__" cb = Some fr ->
  od_get "__eq__" cb = Some fe ->
  let s' := store_class_attr c "__eq__" fe (store_class_attr c "__repr__" fr s) in
  add_dunders (Some c) None callbacks s = (s', Ok (Decorated c))
  /\ (exists dec,
        add_dunders None None callbacks s0 = (s0, Ok (Decorator dec))
        /\ dec c s = (s', Ok c))
  /\ type_lookup s' c "__repr__" = Some fr
  /\ type_lookup s' c "__eq__" = Some fe
  /\ (forall k, k <> "__repr__" -> k <> "__eq__" ->
        od_get k (cdict (classes s' c)) = od_get k (cdict (classes s c)))
  /\ (forall c', c' <> c -> classes s' c' = classes s c')
  /\ dunders_to_funcs s' = dunders_to_funcs s.
Proof.
  intros cb Hc Hr He s'.
  assert (Hdec : dunder_decorator None callbacks c s = (s', Ok c)).
  { unfold dunder_decorator, default_dunders. fold cb. cbn [set_dunders].
    rewrite Hr, setattr_class_user by assumption.
    replace (match callbacks with
             | Some c0 => c0
             | None => dunders_to_funcs s
             end) with cb by reflexivity.
    rewrite He, setattr_class_user by assumption. reflexivity. }
  repeat split.
  - unfold add_dunders. now rewrite Hdec.
  - exists (dunder_decorator None callbacks). split; [reflexivity | exact Hdec].
  - unfold type_lookup, mro. cbn [mro_lookup]. unfold s'.
    now rewrite !store_class_attr_get.
  - apply store_class_attr_lookup.
  - intros k Hk1 Hk2. unfold s'. rewrite !store_class_attr_get.
    destruct (String.eqb_spec k "__eq__"); [contradiction|].
    destruct (String.eqb_spec k "__repr__"); [contradiction | reflexivity].
  - intros c' Hc'. unfold s'. now rewrite !store_class_attr_other.
Qed.

Lemma add_dunders_default_installs_witness :
  add_dunders (Some 1) None None Fixtures.test_state
  = (store_class_attr 1 "__eq__" (VFun Autoeq)
       (store_class_attr 1 "__repr__" (VFun Autorepr) Fixtures.test_state),
     Ok (Decorated 1)).
Proof.
  assert (H : 1 <> object_cid) by discriminate.
  exact (proj1 (add_dunders_default_installs Fixtures.test_state
                  Fixtures.test_state 1 None (VFun Autorepr) (VFun Autoeq)
                  H eq_refl eq_refl)).
Defined.

(** [register] leaves every class as it is, whatever was injected before. *)
Lemma register_leaves_classes
    (s : state) (c : cid) (dunders : option (list string))
    (callbacks : option (odict value)) (name : string) (f : value) :
  let s1 := fst (add_dunders (Some c) dunders callbacks s) in
  let s2 := register name f s1 in
  classes s2 = classes s1
  /\ (forall c0 k, type_lookup s2 c0 k = type_lookup s1 c0 k).
Proof.
  intros s1 s2. split; [reflexivity|].
  intros c0 k. now apply type_lookup_ext.
Qed.

Lemma add_dunders_one (s : state) (c : cid) (name : string) (f : value) :
  c <> object_cid ->
  od_get name (dunders_to_funcs s) = Some f ->
  add_dunders (Some c) (Some [name]) None s
  = (store_class_attr c name f s, Ok (Decorated c)).
Proof.
  intros Hc H. unfold add_dunders, dunder_decorator. cbn [set_dunders].
  now rewrite H, setattr_class_user.
Qed.

(** C10: a class injected with the registry's function [g] for [name] keeps
    [g] when another function [f] is registered under [name] afterwards:
    [register] changes no class.  An injection made after the registration
    installs [f]. *)
Theorem register_after_injection
    (s : state) (c c' : cid) (name : string) (g f : value) :
  c <> object_cid -> c' <> object_cid ->
  od_get name (dunders_to_funcs s) = Some g ->
  let s1 := fst (add_dunders (Some c) (Some [name]) None s) in
  let s2 := register name f s1 in
  let s3 := fst (add_dunders (Some c') (Some [name]) None s2) in
  type_lookup s1 c name = Some g
  /\ classes s2 = classes s1
  /\ type_lookup s2 c name = Some g
  /\ type_lookup s3 c' name = Some f
  /\ (c <> c' -> type_lookup s3 c name = Some g).
Proof.
  intros Hc Hc' Hg s1 s2 s3.
  assert (E1 : s1 = store_class_attr c name g s).
  { unfold s1. now rewrite (add_dunders_one _ _ _ _ Hc Hg). }
  assert (L1 : type_lookup s1 c name = Some g).
  { rewrite E1. apply store_class_attr_lookup. }
  assert (L2 : type_lookup s2 c name = Some g).
  { rewrite <- L1. now apply type_lookup_ext. }
  assert (E3 : s3 = store_class_attr c' name f s2).
  { unfold s3, s2.
    now rewrite (add_dunders_one _ _ _ _ Hc' (register_get name f s1)). }
  repeat split; try assumption.
  - rewrite E3. apply store_class_attr_lookup.
  - intros Hne. rewrite E3.
    unfold type_lookup, mro. cbn [mro_lookup].
    rewrite store_class_attr_other by assumption.
    change (classes s2 c) with (classes s1 c). rewrite E1.
    now rewrite store_class_attr_get, String.eqb_refl.
Qed.

Lemma register_after_injection_witness :
  let s1 := fst (add_dunders (Some 1) (Some ["__repr__"]) None
                   Fixtures.test_state) in
  let s2 := register "__repr__" (VFun (UserFun 7)) s1 in
  let s3 := fst (add_dunders (Some 2) (Some ["__repr__"]) None s2) in
  type_lookup s2 1 "__repr__" = Some (VFun Autorepr)
  /\ type_lookup s3 2 "__repr__" = Some (VFun (UserFun 7)).
Proof.
  assert (H1 : 1 <> object_cid) by discriminate.
  assert (H2 : 2 <> object_cid) by discriminate.
  destruct (register_after_injection Fixtures.test_state 1 2 "__repr__"
              (VFun Autorepr) (VFun (UserFun 7)) H1 H2 eq_refl)
    as (_ & _ & L2 & L3 & _).
  split; [exact L2 | exact L3].
Defined.

(** ** Injection into the classes of a module *)

Lemma for_each_fst {A} (step : A -> state -> state * result unit) l s :
  (forall x s0, fst (step x s0) = s0) -> fst (for_each step l s) = s.
Proof.
  intros H. revert s. induction l as [|x l IH]; intros s; simpl; [reflexivity|].
  specialize (H x s). destruct (step x s) as [s1 [[]|e]]; simpl in H; subst.
  - apply IH.
  - reflexivity.
Qed.


Lemma add_each_app fuel m cb recurse pre rest s :
  add_each fuel m cb recurse (pre ++ rest) s
  = match add_each fuel m cb recurse pre s with
    | (s1, Ok _) => add_each fuel m cb recurse rest s1
    | (s1, Raise e) => (s1, Raise e)
    end.
Proof.
  revert s. induction pre as [|d pre IH]; intros s; simpl; [reflexivity|].
  destruct (_add_to_objects fuel m d cb recurse s) as [s1 [[]|e]];
    [apply IH | reflexivity].
Qed.

(** A name that the mapping lacks changes no class: the lookup
    [callbacks[dunder]] fails before [setattr] is reached. *)
Lemma inject_absent d cb obj s :
  od_get d cb = None -> fst (inject d cb obj s) = s.
Proof.
  intros H. destruct obj; simpl; try reflexivity. now rewrite H.
Qed.

Lemma add_to_objects_absent fuel m d cb recurse s :
  od_get d cb = None -> fst (_add_to_objects fuel m d cb recurse s) = s.
Proof.
  intros Hd. unfold _add_to_objects. revert m s.
  induction fuel as [|fuel IH]; intros m s; simpl; [reflexivity|].
  apply for_each_fst. intros obj s0. unfold visit.
  destruct (pred_default d obj s0) as [b|e]; [|reflexivity].
  assert (Hb : fst (if b then inject d cb obj s0 else (s0, Ok tt)) = s0).
  { destruct b; [now apply inject_absent | reflexivity]. }
  destruct (if b then inject d cb obj s0 else (s0, Ok tt)) as [s1 [[]|e]];
    simpl in Hb; subst s1; [|reflexivity].
  destruct obj; try reflexivity.
  destruct recurse; [|reflexivity].
  destruct (od_get "__package__" (mdict (modules s0 m0))); [|reflexivity].
  destruct (py_is v (VModule m)); [apply IH | reflexivity].
Qed.

Lemma pred_default_class d obj s :
  pred_default d obj s = Ok true -> exists c, obj = VClass c.
Proof.
  destruct obj; simpl; try discriminate. eauto.
Qed.

(** Without recursion a name that the mapping lacks raises [KeyError] if
    the loop selects some object of the module, and nothing otherwise. *)
Lemma flat_absent sub m d cb l s :
  od_get d cb = None ->
  (forall obj, In obj l -> exists b, pred_default d obj s = Ok b) ->
  for_each (visit sub m (pred_default d) false (inject d cb)) l s
  = (s, if existsb (selects d s) l then Raise (KeyError d) else Ok tt).
Proof.
  intros Hd. induction l as [|obj l IH]; intros Hp; simpl; [reflexivity|].
  destruct (Hp obj (or_introl eq_refl)) as [b Hb].
  unfold visit at 1, selects at 1. rewrite Hb. destruct b.
  - destruct (pred_default_class _ _ _ Hb) as [c ->]. simpl. now rewrite Hd.
  - assert (E : match obj with
                | VModule _ => (s, Ok tt)
                | _ => (s, Ok tt)
                end = (s, @Ok unit tt)) by now destruct obj.
    rewrite E. simpl. apply IH. intros obj' Hin. apply Hp. now right.
Qed.

(** C6, as stated, fails: a string that names no imported module makes
    [add_dunders_to_module] raise [KeyError], not [TypeError]. *)
Lemma unknown_module_name_raises_key_error :
  od_get "nosuch" (sys_modules Fixtures.test_state) = None
  /\ add_dunders_to_module 1 (VStr "nosuch") None None false Fixtures.test_state
     = (Fixtures.test_state, Raise (KeyError "nosuch")).
Proof.
  split; reflexivity.
Qed.

(** C6, amended: an argument that is neither a string nor a module raises
    [TypeError]; a string that is not a key of [sys.modules] raises
    [KeyError]; in both cases at once, with the state as it was. *)
Theorem add_dunders_to_module_bad_argument
    (fuel : nat) (x : value) (dunders : option (list string))
    (callbacks : option (odict value)) (recurse : bool) (s : state) :
  (forall m, x <> VModule m) ->
  (forall name, x = VStr name -> od_get name (sys_modules s) = None) ->
  add_dunders_to_module fuel x dunders callbacks recurse s
  = (s, Raise (match x with
               | VStr name => KeyError name
               | _ => TypeError x
               end)).
Proof.
  intros Hm Hs. destruct x; simpl; try reflexivity.
  - now rewrite (Hs s0 eq_refl).
  - now destruct (Hm m).
Qed.

Lemma add_dunders_to_module_bad_argument_witness :
  add_dunders_to_module 1 (VInt 3) None None false Fixtures.test_state
  = (Fixtures.test_state, Raise (TypeError (VInt 3)))
  /\ add_dunders_to_module 1 (VStr "nosuch") None None false Fixtures.test_state
     = (Fixtures.test_state, Raise (KeyError "nosuch")).
Proof.
  split.
  - apply (add_dunders_to_module_bad_argument 1 (VInt 3) None None false
             Fixtures.test_state).
    + intros m H. discriminate H.
    + intros name H. discriminate H.
  - apply (add_dunders_to_module_bad_argument 1 (VStr "nosuch") None None false
             Fixtures.test_state).
    + intros m H. discriminate H.
    + intros name H. injection H as <-. reflexivity.
Defined.

(** C7, as stated, fails: a module-wide injection of a name that the mapping
    lacks raises nothing when no class of the module is selected for it;
    here the one class of the module defines [__repr__] itself. *)
Lemma absent_name_without_error :
  od_get "__repr__" (@nil (string * value)) = None
  /\ add_dunders_to_module 1 (VModule 0) (Some ["__repr__"]) (Some []) false
       Fixtures.custom_state
     = (Fixtures.custom_state, Ok tt).
Proof.
  split; reflexivity.
Qed.

(** *** Which classes a module-wide injection overwrites *)

Section Selection.
Variable scope : cid -> Prop.
Variables (d : string) (f base : value) (s0 : state).
Hypothesis f_not_base : f <> base.
Hypothesis object_has :
  od_get d (cdict (classes s0 object_cid)) = Some base.

Let inj := injected scope d f base s0.

Lemma injected_refl : inj s0.
Proof.
  repeat split. intros c. now left.
Qed.

Lemma injected_cmro s c : inj s -> cmro (classes s c) = cmro (classes s0 c).
Proof.
  intros (_ & _ & _ & H). destruct (H c) as [->|(_ & _ & _ & ->)]; reflexivity.
Qed.

(** The class's own entry: as before, or [f]. *)
Lemma injected_own s c :
  inj s ->
  od_get d (cdict (classes s c)) = od_get d (cdict (classes s0 c))
  \/ (od_get d (cdict (classes s c)) = Some f
      /\ type_lookup s0 c d = Some base).
Proof.
  intros (_ & _ & _ & H). destruct (H c) as [->|(_ & _ & Hb & ->)].
  - now left.
  - right. simpl. split; [apply od_get_set_same | assumption].
Qed.

(** What resolved to [base] after some injections did so before. *)
Lemma injected_lookup_down s l :
  inj s -> mro_lookup s l d = Some base -> mro_lookup s0 l d = Some base.
Proof.
  intros Hi. induction l as [|c l IH]; simpl; [discriminate|].
  destruct (injected_own s c Hi) as [->|[-> _]].
  - destruct (od_get d (cdict (classes s0 c))); [trivial | exact IH].
  - intros [= E]. contradiction.
Qed.

(** What resolved to [v] before resolves to [v] or to [f]. *)
Lemma injected_lookup_up s l v :
  inj s -> mro_lookup s0 l d = Some v ->
  mro_lookup s l d = Some v \/ mro_lookup s l d = Some f.
Proof.
  intros Hi. induction l as [|c l IH]; simpl; [discriminate|].
  destruct (injected_own s c Hi) as [->|[-> _]].
  - destruct (od_get d (cdict (classes s0 c))); [now left | exact IH].
  - now right.
Qed.

Lemma injected_type_lookup_down s c :
  inj s -> type_lookup s c d = Some base -> type_lookup s0 c d = Some base.
Proof.
  intros Hi. unfold type_lookup, mro. rewrite (injected_cmro s c Hi).
  now apply injected_lookup_down.
Qed.

Lemma injected_type_lookup_up s c v :
  inj s -> type_lookup s0 c d = Some v ->
  type_lookup s c d = Some v \/ type_lookup s c d = Some f.
Proof.
  intros Hi. unfold type_lookup, mro. rewrite (injected_cmro s c Hi).
  now apply injected_lookup_up.
Qed.

(** [getattr(object, dunder)] is the same all along. *)
Lemma injected_object s : inj s -> type_lookup s object_cid d = Some base.
Proof.
  intros (_ & _ & _ & H). unfold type_lookup, mro. cbn [mro_lookup].
  destruct (H object_cid) as [->|(_ & Hc & _)]; [|contradiction].
  now rewrite object_has.
Qed.

Lemma injected_store s c :
  inj s -> scope c -> c <> object_cid -> type_lookup s c d = Some base ->
  inj (store_class_attr c d f s).
Proof.
  intros Hi Hs Hc Hl.
  pose proof (injected_type_lookup_down s c Hi Hl) as Hl0.
  destruct Hi as (H1 & H2 & H3 & H).
  repeat split; try assumption. intros c'. simpl.
  destruct (Nat.eqb_spec c' c) as [->|Hne]; [|apply H].
  destruct (H c) as [E|(_ & _ & _ & E)].
  - right. rewrite E. repeat split; assumption.
  - exfalso. apply f_not_base.
    unfold type_lookup, mro in Hl. cbn [mro_lookup] in Hl.
    rewrite E in Hl. simpl in Hl. rewrite od_get_set_same in Hl.
    congruence.
Qed.

(** Once a class resolves [dunder] to [f], one more store keeps it so. *)
Lemma store_keeps_f s c c' :
  type_lookup s c' d = Some f ->
  type_lookup (store_class_attr c d f s) c' d = Some f.
Proof.
  unfold type_lookup, mro.
  assert (Hm : cmro (classes (store_class_attr c d f s) c')
               = cmro (classes s c')).
  { simpl. now destruct (Nat.eqb c' c) eqn:E;
      [apply Nat.eqb_eq in E; subst|]. }
  rewrite Hm. generalize (c' :: cmro (classes s c')). intros l.
  induction l as [|x l IH]; simpl; [discriminate|].
  destruct (Nat.eqb_spec x c) as [->|Hne].
  - simpl. now rewrite od_get_set_same.
  - destruct (od_get d (cdict (classes s x))); [trivial | exact IH].
Qed.
End Selection.

Section FlatTraversal.
Variable scope : cid -> Prop.
Variables (d : string) (f base : value) (s0 : state).
Variables (cb : odict value) (m : mid).
Variable sub : mid -> state -> state * result unit.
Hypothesis f_not_base : f <> base.
Hypothesis object_has :
  od_get d (cdict (classes s0 object_cid)) = Some base.
Hypothesis mapping_has : od_get d cb = Some f.

Let inj := injected scope d f base s0.
Let step := visit sub m (pred_default d) false (inject d cb).

(** One turn of the loop on a class that resolved [dunder] before. *)
Lemma visit_class s c v :
  inj s -> scope c -> c <> object_cid -> type_lookup s0 c d = Some v ->
  exists s',
    step (VClass c) s = (s', Ok tt)
    /\ inj s'
    /\ (forall c', type_lookup s c' d = Some f -> type_lookup s' c' d = Some f)
    /\ (v = base -> type_lookup s' c d = Some f).
Proof.
  intros Hi Hs Hc Hv.
  pose proof (injected_object scope d f base s0 object_has s Hi) as Hobj.
  unfold step, visit, pred_default, getattr_class. rewrite Hobj.
  destruct (injected_type_lookup_up scope d f base s0 s c v Hi Hv) as [E|E];
    rewrite E; cbn [bind].
  - destruct (py_is v base) eqn:Hb.
    + apply py_is_true in Hb. subst v.
      unfold inject. rewrite mapping_has, setattr_class_user by assumption.
      exists (store_class_attr c d f s).
      split; [reflexivity|]. split; [|split].
      * now apply (injected_store scope d f base s0 f_not_base).
      * intros c'. apply store_keeps_f.
      * intros _. apply store_class_attr_lookup.
    + exists s. split; [reflexivity|]. split; [assumption|].
      split; [auto|]. intros ->. exfalso.
      assert (H : py_is base base = true) by now apply py_is_true.
      congruence.
  - assert (Hb : py_is f base = false).
    { destruct (py_is f base) eqn:Hb; [|reflexivity].
      apply py_is_true in Hb. contradiction. }
    rewrite Hb. exists s. split; [reflexivity|]. split; [assumption|].
    split; auto.
Qed.

Lemma visit_other s obj :
  (forall c, obj <> VClass c) -> step obj s = (s, Ok tt).
Proof.
  intros H. unfold step, visit.
  destruct obj; try reflexivity. now destruct (H c).
Qed.

(** The whole loop over the values of the module. *)
Lemma flat_traversal l s :
  inj s ->
  (forall c, In (VClass c) l ->
     scope c /\ c <> object_cid /\ type_lookup s0 c d <> None) ->
  exists s',
    for_each step l s = (s', Ok tt)
    /\ inj s'
    /\ (forall c', type_lookup s c' d = Some f -> type_lookup s' c' d = Some f)
    /\ (forall c, In (VClass c) l -> type_lookup s0 c d = Some base ->
                  type_lookup s' c d = Some f).
Proof.
  revert s. induction l as [|obj l IH]; intros s Hi Hl.
  - exists s. split; [reflexivity|]. split; [assumption|].
    split; [auto|]. intros c [].
  - assert (Hl' : forall c, In (VClass c) l ->
                    scope c /\ c <> object_cid /\ type_lookup s0 c d <> None).
    { intros c Hin. apply Hl. now right. }
    assert (Hstep : exists s1,
               step obj s = (s1, Ok tt) /\ inj s1
               /\ (forall c', type_lookup s c' d = Some f ->
                              type_lookup s1 c' d = Some f)
               /\ (forall c, obj = VClass c ->
                     type_lookup s0 c d = Some base ->
                     type_lookup s1 c d = Some f)).
    { destruct (match obj with VClass c => Some c | _ => None end)
        as [c|] eqn:Hobj.
      - destruct obj; try discriminate. injection Hobj as ->.
        destruct (Hl c (or_introl eq_refl)) as (Hs & Hc & Hres).
        assert (Hex : exists v, type_lookup s0 c d = Some v).
        { destruct (type_lookup s0 c d) as [v|]; [eauto | congruence]. }
        destruct Hex as [v Hv].
        destruct (visit_class s c v Hi Hs Hc Hv) as (s1 & E & Hi1 & Hk & Hb).
        exists s1. split; [assumption|]. split; [assumption|].
        split; [assumption|].
        intros c' [= <-] H0. apply Hb. congruence.
      - exists s. split.
        + apply visit_other. intros c ->. discriminate.
        + split; [assumption|]. split; [auto|].
          intros c ->. discriminate. }
    destruct Hstep as (s1 & E & Hi1 & Hk & Hb).
    destruct (IH s1 Hi1 Hl') as (s' & E' & Hi' & Hk' & Hb').
    exists s'. cbn [for_each]. rewrite E.
    split; [assumption|]. split; [assumption|]. split; [auto|].
    intros c [->|Hin] Hc0; [|now apply Hb'].
    apply Hk'. now apply Hb.
Qed.
End FlatTraversal.


(** *** Recursion into submodules *)

Lemma inject_modules d cb obj s : modules (fst (inject d cb obj s)) = modules s.
Proof.
  destruct obj; simpl; try reflexivity.
  destruct (od_get d cb); [|reflexivity].
  unfold setattr_class. now destruct (Nat.eqb c object_cid).
Qed.

(** The test [obj.__package__ == module] compares the value of
    [__package__] with the module object. *)
Lemma package_test pkg m : py_is pkg (VModule m) = true <-> pkg = VModule m.
Proof. apply py_is_true. Qed.

(** When [__package__] of every module bound in [m] is something other than
    a module object, as it is for every module the import system creates
    (a string, or [None]), the recursion flag changes nothing: no submodule
    is entered. *)
Lemma recursion_never_enters (n : nat) (m : mid) (d : string)
    (cb : odict value) (s : state) :
  (forall sub, In (VModule sub) (od_values (mdict (modules s m))) ->
     exists pkg, od_get "__package__" (mdict (modules s sub)) = Some pkg
                 /\ forall m', pkg <> VModule m') ->
  _add_to_objects (S n) m d cb true s = _add_to_objects (S n) m d cb false s.
Proof.
  intros Hpkg. unfold _add_to_objects. cbn [_module_attrs].
  generalize (fun sub => _module_attrs n sub (pred_default d) true (inject d cb)).
  generalize (fun sub => _module_attrs n sub (pred_default d) false (inject d cb)).
  intros sub_f sub_t.
  assert (Hgen : forall l s1,
             modules s1 = modules s ->
             (forall sub, In (VModule sub) l ->
                In (VModule sub) (od_values (mdict (modules s m)))) ->
             for_each (visit sub_t m (pred_default d) true (inject d cb)) l s1
             = for_each (visit sub_f m (pred_default d) false (inject d cb)) l s1).
  { induction l as [|obj l IH]; intros s1 Hm Hl; [reflexivity|].
    cbn [for_each].
    assert (Hv : visit sub_t m (pred_default d) true (inject d cb) obj s1
                 = visit sub_f m (pred_default d) false (inject d cb) obj s1
                 /\ modules (fst (visit sub_f m (pred_default d) false
                                    (inject d cb) obj s1)) = modules s).
    { unfold visit. destruct (pred_default d obj s1) as [b|e]; [|now split].
      pose proof (inject_modules d cb obj s1) as Hi.
      assert (Hb : modules (fst (if b then inject d cb obj s1
                                 else (s1, Ok tt))) = modules s).
      { destruct b; [now rewrite Hi | assumption]. }
      destruct (if b then inject d cb obj s1 else (s1, Ok tt))
        as [s2 [[]|e]]; simpl in Hb; [|now split].
      destruct obj; try now split.
      destruct (Hpkg m0 (Hl m0 (or_introl eq_refl))) as (pkg & Hp & Hnm).
      rewrite Hb, Hp.
      destruct (py_is pkg (VModule m)) eqn:E; [|now split].
      apply package_test in E. now destruct (Hnm m). }
    destruct Hv as [-> Hm2].
    destruct (visit sub_f m (pred_default d) false (inject d cb) obj s1)
      as [s2 [[]|e]]; [|reflexivity].
    apply IH; [exact Hm2|]. intros sub Hin. apply Hl. now right. }
  apply Hgen; auto.
Qed.

(** C2 at the failing input: the package [pkg] binds its submodule
    [pkg.sub], whose [__package__] is ["pkg"], the name of the package.
    With recursion on, [add_dunders_to_module] on the package leaves the
    class [K] of the submodule as it was, although the same call on the
    submodule itself injects it. *)
Theorem recursion_skips_submodule_of_package :
  od_get "__name__" (mdict (modules Fixtures.pkg_state 0)) = Some (VStr "pkg")
  /\ od_get "sub" (mdict (modules Fixtures.pkg_state 0)) = Some (VModule 1)
  /\ od_get "__package__" (mdict (modules Fixtures.pkg_state 1))
     = Some (VStr "pkg")
  /\ od_get "K" (mdict (modules Fixtures.pkg_state 1)) = Some (VClass 1)
  /\ add_dunders_to_module 3 (VModule 0) None None true Fixtures.pkg_state
     = (Fixtures.pkg_state, Ok tt)
  /\ type_lookup Fixtures.pkg_state 1 "__repr__"
     = Some (VFun (ObjectSlot "__repr__"))
  /\ type_lookup
       (fst (add_dunders_to_module 3 (VModule 1) None None false
               Fixtures.pkg_state)) 1 "__repr__"
     = Some (VFun Autorepr).
Proof.
  repeat split.
Qed.

(** The submodule is entered only when its [__package__] is the module
    object itself. *)
Example recursion_enters_rebound_submodule :
  type_lookup
    (fst (add_dunders_to_module 3 (VModule 0) None None true
            Fixtures.rebound_state)) 1 "__repr__"
  = Some (VFun Autorepr).
Proof. reflexivity. Qed.

(** ** Instances without slots

    For an instance whose type declares no slots, every own field is a key
    of its [__dict__] and has a value there: [autoeq] and [autorepr] always
    return. *)

Lemma map_keys_values {B} (g : string -> option B) (l : list (string * B)) :
  (forall k v, In (k, v) l -> g k = Some v) ->
  map g (map fst l) = map Some (map snd l).
Proof.
  induction l as [|[k v] l IH]; intros H; simpl; [reflexivity|].
  rewrite (H k v) by now left. f_equal. apply IH.
  intros k' v' Hin. apply H. now right.
Qed.

Lemma dict_instance_own_values s o :
  slots_of s o = None ->
  (forall k, type_lookup s (oclass o) k <> Some VMember) ->
  NoDup (od_keys (odict_ o)) ->
  map (own_value s o) (_obj_attrs s o) = map Some (od_values (odict_ o)).
Proof.
  intros Hs Hm Hnd. unfold _obj_attrs. rewrite Hs.
  apply map_keys_values. intros k v Hin. unfold own_value.
  pose proof (Hm k) as Hk.
  destruct (type_lookup s (oclass o) k) as [[]|];
    solve [now apply od_get_In | congruence].
Qed.

Lemma autoeq_dict_instances s a b :
  isinstance s b (oclass a) = true ->
  slots_of s a = None -> slots_of s b = None ->
  (forall k, type_lookup s (oclass a) k <> Some VMember) ->
  (forall k, type_lookup s (oclass b) k <> Some VMember) ->
  NoDup (od_keys (odict_ a)) -> NoDup (od_keys (odict_ b)) ->
  autoeq s a b = Ok (eq_loop (od_values (odict_ a)) (od_values (odict_ b))).
Proof.
  intros Hty Hsa Hsb Hma Hmb Hna Hnb.
  rewrite autoeq_checked by assumption.
  rewrite (obj_attr_vals_own s a _ (dict_instance_own_values s a Hsa Hma Hna)).
  rewrite (obj_attr_vals_own s b _ (dict_instance_own_values s b Hsb Hmb Hnb)).
  reflexivity.
Qed.

(** The registry holds [__eq__] and [__repr__] from the start, and
    [register] never removes a name. *)
Lemma initial_registry_defaults :
  od_get "__repr__" initial_registry = Some (VFun Autorepr)
  /\ od_get "__eq__" initial_registry = Some (VFun Autoeq).
Proof. split; reflexivity. Qed.

(** ** Further properties of the attribute lists *)

Lemma starts_with_underscores a :
  String.eqb (substring 0 2 a) "__" = true <-> exists t, a = ("__" ++ t)%string.
Proof.
  rewrite String.eqb_eq. split.
  - destruct a as [|c1 [|c2 t]]; simpl; try discriminate.
    intros [= -> ->]. rewrite ?substring_zero_zero. now exists t.
  - intros [t ->]. simpl. destruct t; reflexivity.
Qed.

Lemma substring_past_head n m c a :
  substring (S n) m (String c a) = substring n m a.
Proof. reflexivity. Qed.

Lemma ends_with_underscores_at a n :
  substring n 2 a = "__" -> String.length a <= n + 2 ->
  exists h, a = (h ++ "__")%string.
Proof.
  revert n. induction a as [|c a IH]; intros n.
  - destruct n; discriminate.
  - destruct n as [|n].
    + destruct a as [|c2 a]; simpl; [discriminate|].
      intros [= -> -> _] Hlen. destruct a as [|c3 a]; [|simpl in Hlen; lia].
      now exists "".
    + rewrite substring_past_head. intros Hs Hlen. simpl in Hlen.
      destruct (IH n Hs) as [h ->]; [lia|]. now exists (String c h).
Qed.

Lemma string_length_app (h t : string) :
  String.length (h ++ t) = String.length h + String.length t.
Proof.
  induction h as [|c h IH]; simpl; [reflexivity | now rewrite IH].
Qed.

Lemma ends_with_underscores a :
  String.eqb (substring (String.length a - 2) 2 a) "__" = true
  <-> exists h, a = (h ++ "__")%string.
Proof.
  rewrite String.eqb_eq. split.
  - intros H. apply (ends_with_underscores_at a _ H). lia.
  - intros [h ->].
    replace (String.length (h ++ "__") - 2) with (String.length h).
    + induction h as [|c h IH]; [reflexivity | exact IH].
    + rewrite string_length_app. simpl. lia.
Qed.

(** X1: [_cls_attrs] keeps exactly the names of the class namespace that do
    not both start and end with two underscores; the two may overlap, so the
    names [__] and [___] are left out as well, while a name with one leading
    underscore is kept. *)
Theorem cls_attrs_hides_dunder_names (s : state) (o : pyobject) (k : string) :
  In k (_cls_attrs s o)
  <-> In k (od_keys (cdict (classes s (oclass o))))
      /\ ~ ((exists t, k = ("__" ++ t)%string)
            /\ (exists h, k = (h ++ "__")%string)).
Proof.
  unfold _cls_attrs. rewrite filter_In, negb_true_iff.
  unfold is_dunder.
  rewrite <- starts_with_underscores, <- ends_with_underscores.
  rewrite <- andb_true_iff.
  destruct (_ && _); split; intros [H1 H2]; split; auto; congruence.
Qed.

Lemma mapM_Forall2 {A B} (f : A -> result B) (R : A -> B -> Prop) l :
  (forall a, In a l -> exists b, f a = Ok b /\ R a b) ->
  exists bs, mapM f l = Ok bs /\ Forall2 R l bs.
Proof.
  induction l as [|a l IH]; intros H; simpl.
  - exists []. split; [reflexivity | constructor].
  - destruct (H a (or_introl eq_refl)) as (b & -> & Hb).
    destruct IH as (bs & -> & Hbs).
    { intros a' Hin. apply H. now right. }
    exists (b :: bs). split; [reflexivity | now constructor].
Qed.

Lemma od_get_key {V} k (d : odict V) :
  In k (od_keys d) -> exists v, od_get k d = Some v.
Proof.
  intros Hin. destruct (od_get k d) as [v|] eqn:E; [eauto|].
  apply od_get_None in E. contradiction.
Qed.

(** ** Further properties of the default equality *)

Lemma mapM_ext_in {A B} (f g : A -> result B) l :
  (forall a, In a l -> f a = g a) -> mapM f l = mapM g l.
Proof.
  induction l as [|a l IH]; intros H; simpl; [reflexivity|].
  rewrite (H a) by now left. rewrite IH; [reflexivity|].
  intros a' Hin. apply H. now right.
Qed.

(** X6: for instances without slots [autoeq] never looks at a field name:
    replacing [other] by an instance of the same class that holds the same
    values in the same order, under any names, gives the same result. *)
Theorem autoeq_ignores_field_names (s : state) (a b b' : pyobject) :
  oclass b' = oclass b ->
  slots_of s b = None ->
  (forall k, type_lookup s (oclass b) k <> Some VMember) ->
  NoDup (od_keys (odict_ b)) ->
  NoDup (od_keys (odict_ b')) ->
  od_values (odict_ b') = od_values (odict_ b) ->
  _obj_attr_vals s b' = _obj_attr_vals s b
  /\ autoeq s a b' = autoeq s a b.
Proof.
  intros Hc Hs Hm Hn Hn' Hv.
  assert (Hs' : slots_of s b' = None) by (unfold slots_of; now rewrite Hc).
  assert (Hm' : forall k, type_lookup s (oclass b') k <> Some VMember)
    by (intros k; rewrite Hc; apply Hm).
  assert (E : _obj_attr_vals s b' = _obj_attr_vals s b).
  { rewrite (obj_attr_vals_own s b' _ (dict_instance_own_values s b' Hs' Hm' Hn')).
    rewrite (obj_attr_vals_own s b _ (dict_instance_own_values s b Hs Hm Hn)).
    now rewrite Hv. }
  split; [exact E|].
  unfold autoeq, isinstance. now rewrite Hc, E.
Qed.

Lemma autoeq_ignores_field_names_witness :
  autoeq Fixtures.test_state Fixtures.ab_inst
    (Fixtures.instance 1 [("x", VInt 1); ("y", VInt 2)])
  = autoeq Fixtures.test_state Fixtures.ab_inst Fixtures.ab_inst.
Proof.
  assert (Hm : forall k, type_lookup Fixtures.test_state 1 k <> Some VMember).
  { intros k. unfold type_lookup. simpl.
    destruct (String.eqb k "__init__"); [discriminate|].
    destruct (String.eqb k "__repr__"); [discriminate|].
    destruct (String.eqb k "__eq__"); [discriminate|].
    destruct (String.eqb k "__hash__"); discriminate. }
  assert (Hn : NoDup (od_keys (odict_ Fixtures.ab_inst))) by nodup_strings.
  assert (Hn' : NoDup (od_keys (odict_ (Fixtures.instance 1
                                          [("x", VInt 1); ("y", VInt 2)]))))
    by nodup_strings.
  exact (proj2 (autoeq_ignores_field_names Fixtures.test_state
                  Fixtures.ab_inst Fixtures.ab_inst
                  (Fixtures.instance 1 [("x", VInt 1); ("y", VInt 2)])
                  eq_refl eq_refl Hm Hn Hn' eq_refl)).
Defined.

(** X7: when a class of the method resolution order declares [__slots__],
    [_obj_attrs] is that declaration and the keys of [__dict__] are not
    looked at: what an instance holds in its [__dict__] under other names
    changes neither [_obj_attr_vals] nor the results of [autoeq] and
    [autorepr]. *)
Theorem slots_hide_dict_fields
    (s : state) (a a' : pyobject) (sl : list string) :
  slots_of s a = Some sl ->
  oclass a' = oclass a ->
  oslots a' = oslots a ->
  (forall k, In k sl -> od_get k (odict_ a') = od_get k (odict_ a)) ->
  _obj_attrs s a' = sl
  /\ _obj_attr_vals s a' = _obj_attr_vals s a
  /\ (forall b, autoeq s a' b = autoeq s a b)
  /\ (forall b, autoeq s b a' = autoeq s b a)
  /\ (forall other_str, autorepr other_str s a' = autorepr other_str s a).
Proof.
  intros Hs Hc Ho Hd.
  assert (Ha : _obj_attrs s a = sl) by (unfold _obj_attrs; now rewrite Hs).
  assert (Ha' : _obj_attrs s a' = sl).
  { unfold _obj_attrs, slots_of. rewrite Hc. fold (slots_of s a).
    now rewrite Hs. }
  assert (Hv : _obj_attr_vals s a' = _obj_attr_vals s a).
  { unfold _obj_attr_vals. rewrite Ha, Ha'. apply mapM_ext_in.
    intros k Hk. unfold getattr. now rewrite Hc, Ho, (Hd k Hk). }
  split; [exact Ha'|]. split; [exact Hv|]. split; [|split].
  - intros b. unfold autoeq. now rewrite Hc, Hv.
  - intros b. unfold autoeq, isinstance. now rewrite Hc, Hv.
  - intros other_str. unfold autorepr, _cls_attr_vals, _cls_attrs.
    now rewrite Hc, Hv, Ha, Ha'.
Qed.

Lemma slots_hide_dict_fields_witness :
  _obj_attrs Fixtures.slot_state
    (Fixtures.named_point [("name", VStr "p")]) = ["x"]
  /\ autoeq Fixtures.slot_state
       (Fixtures.named_point [("name", VStr "p")])
       (Fixtures.named_point [("name", VStr "q")])
     = autoeq Fixtures.slot_state (Fixtures.named_point [])
         (Fixtures.named_point [("name", VStr "q")]).
Proof.
  destruct (slots_hide_dict_fields Fixtures.slot_state
              (Fixtures.named_point [])
              (Fixtures.named_point [("name", VStr "p")]) ["x"]
              eq_refl eq_refl eq_refl) as (H1 & _ & H3 & _).
  - intros k [<-|[]]. reflexivity.
  - split; [exact H1 | apply H3].
Defined.

(** ** Further properties of the registry and of single-class injection *)

Lemma od_set_set {V} k (v w : V) (d : odict V) :
  od_set k v (od_set k w d) = od_set k v d.
Proof.
  induction d as [|[k' v'] d IH]; simpl.
  - now rewrite String.eqb_refl.
  - destruct (String.eqb k k') eqn:E; simpl; rewrite E; [reflexivity|].
    now rewrite IH.
Qed.

Lemma od_set_same_value {V} k (v : V) (d : odict V) :
  od_get k d = Some v -> od_set k v d = d.
Proof.
  induction d as [|[k' v'] d IH]; simpl; [discriminate|].
  destruct (String.eqb_spec k k') as [->|Hne].
  - now intros [= ->].
  - intros H. now rewrite IH.
Qed.

(** X8: [register] binds the name to the function and leaves every other
    name of the registry, and every class and module, as it was; a name
    already registered keeps its place among the keys, and of two
    registrations under one name only the later one remains. *)
Theorem register_overwrites (name : string) (f g : value) (s : state) :
  (forall k, od_get k (dunders_to_funcs (register name f s))
             = if String.eqb k name then Some f
               else od_get k (dunders_to_funcs s))
  /\ dunders_to_funcs (register name f (register name g s))
     = dunders_to_funcs (register name f s)
  /\ (In name (od_keys (dunders_to_funcs s)) ->
      od_keys (dunders_to_funcs (register name f s))
      = od_keys (dunders_to_funcs s))
  /\ (~ In name (od_keys (dunders_to_funcs s)) ->
      dunders_to_funcs (register name f s)
      = dunders_to_funcs s ++ [(name, f)])
  /\ classes (register name f s) = classes s
  /\ modules (register name f s) = modules s
  /\ sys_modules (register name f s) = sys_modules s.
Proof.
  split; [|split; [|split; [|split]]].
  - intros k. simpl. destruct (String.eqb_spec k name) as [->|Hne].
    + apply od_get_set_same.
    + apply od_get_set_other. congruence.
  - simpl. apply od_set_set.
  - intros Hin. simpl. now apply od_keys_set_present.
  - intros Hout. simpl. now apply od_set_fresh.
  - repeat split.
Qed.

(** What [set_dunders] can change, whether it ends normally or not. *)
Lemma set_dunders_frame cls cb ds s :
  let s' := fst (set_dunders cls cb ds s) in
  modules s' = modules s
  /\ sys_modules s' = sys_modules s
  /\ dunders_to_funcs s' = dunders_to_funcs s
  /\ (forall c, c <> cls -> classes s' c = classes s c)
  /\ cname (classes s' cls) = cname (classes s cls)
  /\ cmro (classes s' cls) = cmro (classes s cls)
  /\ cslots (classes s' cls) = cslots (classes s cls)
  /\ (forall k,
        od_get k (cdict (classes s' cls)) = od_get k (cdict (classes s cls))
        \/ (In k ds /\ od_get k cb <> None
            /\ od_get k (cdict (classes s' cls)) = od_get k cb)).
Proof.
  revert s. induction ds as [|d ds IH]; intros s; cbn [set_dunders].
  - simpl. repeat split; auto.
  - destruct (od_get d cb) as [f|] eqn:Hd; [|simpl; repeat split; auto].
    unfold setattr_class. destruct (Nat.eqb_spec cls object_cid) as [E|E];
      [simpl; repeat split; auto|].
    destruct (IH (store_class_attr cls d f s))
      as (H1 & H2 & H3 & H4 & H5 & H6 & H7 & H8).
    split; [exact H1|]. split; [exact H2|]. split; [exact H3|].
    split; [|split; [|split; [|split]]].
    + intros c Hc. rewrite H4 by assumption.
      now apply store_class_attr_other.
    + now rewrite H5, store_class_attr_same.
    + now rewrite H6, store_class_attr_same.
    + now rewrite H7, store_class_attr_same.
    + intros k. destruct (H8 k) as [Hk|(Hin & Hcb & Hk)].
      * rewrite Hk, store_class_attr_get.
        destruct (String.eqb_spec k d) as [->|Hne]; [|now left].
        right. split; [now left|]. rewrite Hd. split; [discriminate|reflexivity].
      * right. split; [now right|]. split; assumption.
Qed.

(** X9: whether it ends normally or raises, [add_dunders] changes nothing
    but the namespace of the class it is given, and there only names of the
    behaviour list, each to the mapping's entry: every other class, the
    modules and the registry, the name, bases and slots of the class and
    every other attribute of it stay as they were. *)
Theorem add_dunders_frame
    (s : state) (c : cid) (dunders : option (list string))
    (callbacks : option (odict value)) :
  let ds := match dunders with Some d => d | None => default_dunders end in
  let cb := match callbacks with Some m => m | None => dunders_to_funcs s end in
  let s' := fst (add_dunders (Some c) dunders callbacks s) in
  modules s' = modules s
  /\ sys_modules s' = sys_modules s
  /\ dunders_to_funcs s' = dunders_to_funcs s
  /\ (forall c', c' <> c -> classes s' c' = classes s c')
  /\ cname (classes s' c) = cname (classes s c)
  /\ cmro (classes s' c) = cmro (classes s c)
  /\ cslots (classes s' c) = cslots (classes s c)
  /\ (forall k, ~ In k ds ->
        od_get k (cdict (classes s' c)) = od_get k (cdict (classes s c)))
  /\ (forall k,
        od_get k (cdict (classes s' c)) = od_get k (cdict (classes s c))
        \/ od_get k (cdict (classes s' c)) = od_get k cb).
Proof.
  intros ds cb s'.
  assert (E : s' = fst (set_dunders c cb ds s)).
  { unfold s', add_dunders, dunder_decorator. fold ds cb.
    now destruct (set_dunders c cb ds s). }
  rewrite E.
  destruct (set_dunders_frame c cb ds s)
    as (H1 & H2 & H3 & H4 & H5 & H6 & H7 & H8).
  repeat (split; [assumption|]). split.
  - intros k Hk. destruct (H8 k) as [Hs|(Hin & _)]; [exact Hs | contradiction].
  - intros k. destruct (H8 k) as [Hs|(_ & _ & Hs)]; [now left | now right].
Qed.

Lemma set_class_dict_same k v (x : pyclass) :
  od_get k (cdict x) = Some v -> set_class_dict k v x = x.
Proof.
  intros H. destruct x as [n m sl dct]. unfold set_class_dict. simpl in *.
  now rewrite od_set_same_value.
Qed.

(** What a normal end of [set_dunders] tells. *)
Lemma set_dunders_success cls cb ds s s1 :
  set_dunders cls cb ds s = (s1, Ok tt) ->
  (ds = [] \/ cls <> object_cid)
  /\ forall d, In d ds ->
       exists v, od_get d cb = Some v
                 /\ od_get d (cdict (classes s1 cls)) = Some v.
Proof.
  revert s. induction ds as [|d ds IH]; intros s; cbn [set_dunders].
  - intros _. split; [now left | intros d []].
  - destruct (od_get d cb) as [f|] eqn:Hd; [|discriminate].
    unfold setattr_class. destruct (Nat.eqb_spec cls object_cid) as [E|E];
      [discriminate|].
    intros Hrun. destruct (IH _ Hrun) as [_ Hall].
    split; [now right|]. intros d' [<-|Hin]; [|now apply Hall].
    exists f. split; [exact Hd|].
    pose proof (set_dunders_frame cls cb ds (store_class_attr cls d f s)) as F.
    rewrite Hrun in F. cbn [fst] in F.
    destruct F as (_ & _ & _ & _ & _ & _ & _ & F).
    destruct (F d) as [Hk|(_ & _ & Hk)]; rewrite Hk.
    + now rewrite store_class_attr_get, String.eqb_refl.
    + exact Hd.
Qed.

(** Running the loop over names that the class already binds to the
    mapping's entries changes no class. *)
Lemma set_dunders_again cls cb ds s0 s :
  cls <> object_cid ->
  (forall c, classes s c = classes s0 c) ->
  (forall d, In d ds ->
     exists v, od_get d cb = Some v
               /\ od_get d (cdict (classes s0 cls)) = Some v) ->
  exists s2,
    set_dunders cls cb ds s = (s2, Ok tt)
    /\ (forall c, classes s2 c = classes s0 c)
    /\ modules s2 = modules s
    /\ sys_modules s2 = sys_modules s
    /\ dunders_to_funcs s2 = dunders_to_funcs s.
Proof.
  intros Hcls. revert s. induction ds as [|d ds IH]; intros s Heq Hall;
    cbn [set_dunders].
  - exists s. repeat split; auto.
  - destruct (Hall d (or_introl eq_refl)) as (v & Hcb & Hown).
    rewrite Hcb, setattr_class_user by assumption.
    destruct (IH (store_class_attr cls d v s)) as (s2 & Hrun & Hc & Hm & Hs & Hr).
    + intros c. simpl. destruct (Nat.eqb_spec c cls) as [->|Hne]; [|apply Heq].
      rewrite Heq. now apply set_class_dict_same.
    + intros d' Hin. apply Hall. now right.
    + exists s2. repeat split; assumption.
Qed.

(** X10: decorating a class a second time with the same behaviour list and
    mapping ends normally again and changes nothing. *)
Theorem add_dunders_idempotent
    (s s1 : state) (c : cid) (dunders : option (list string))
    (callbacks : option (odict value)) (r : add_dunders_ret) :
  add_dunders (Some c) dunders callbacks s = (s1, Ok r) ->
  exists s2,
    add_dunders (Some c) dunders callbacks s1 = (s2, Ok r)
    /\ (forall c', classes s2 c' = classes s1 c')
    /\ modules s2 = modules s1
    /\ sys_modules s2 = sys_modules s1
    /\ dunders_to_funcs s2 = dunders_to_funcs s1.
Proof.
  unfold add_dunders, dunder_decorator.
  set (ds := match dunders with Some d => d | None => default_dunders end).
  set (cb := match callbacks with Some m => m | None => dunders_to_funcs s end).
  destruct (set_dunders c cb ds s) as [s1' [[]|e]] eqn:Hrun; simpl;
    [|discriminate].
  intros [= -> <-].
  assert (Hreg : dunders_to_funcs s1 = dunders_to_funcs s).
  { pose proof (set_dunders_frame c cb ds s) as F. rewrite Hrun in F.
    simpl in F. tauto. }
  assert (Hcb : match callbacks with
                | Some m => m
                | None => dunders_to_funcs s1
                end = cb).
  { unfold cb. destruct callbacks; [reflexivity | exact Hreg]. }
  rewrite Hcb.
  destruct (set_dunders_success c cb ds s s1 Hrun) as [[Hnil|Hc] Hall].
  - rewrite Hnil. exists s1. repeat split.
  - destruct (set_dunders_again c cb ds s1 s1 Hc (fun _ => eq_refl) Hall)
      as (s2 & -> & H1 & H2 & H3 & H4).
    exists s2. repeat split; assumption.
Qed.

Lemma add_dunders_idempotent_witness :
  exists s2,
    add_dunders (Some 1) None None
      (fst (add_dunders (Some 1) None None Fixtures.test_state))
    = (s2, Ok (Decorated 1))
    /\ cdict (classes s2 1)
       = cdict (classes (fst (add_dunders (Some 1) None None
                                Fixtures.test_state)) 1).
Proof.
  destruct (add_dunders_idempotent Fixtures.test_state
              (fst (add_dunders (Some 1) None None Fixtures.test_state))
              1 None None (Decorated 1) eq_refl)
    as (s2 & Hrun & Hc & _).
  exists s2. split; [exact Hrun | now rewrite Hc].
Defined.

(** ** Further properties of module-wide injection *)

Lemma only_changes_refl names s : only_changes names s s.
Proof.
  unfold only_changes. repeat split.
Qed.

Lemma only_changes_trans names s1 s2 s3 :
  only_changes names s1 s2 -> only_changes names s2 s3 ->
  only_changes names s1 s3.
Proof.
  intros (A1 & A2 & A3 & A4 & A5) (B1 & B2 & B3 & B4 & B5).
  unfold only_changes.
  split; [congruence|]. split; [congruence|]. split; [congruence|].
  split; [congruence|]. intros c.
  destruct (A5 c) as (C1 & C2 & C3 & C4).
  destruct (B5 c) as (D1 & D2 & D3 & D4).
  split; [congruence|]. split; [congruence|]. split; [congruence|].
  intros k Hk. now rewrite D4, C4.
Qed.

Lemma only_changes_incl names names' s s' :
  incl names names' -> only_changes names s s' -> only_changes names' s s'.
Proof.
  intros Hi (A1 & A2 & A3 & A4 & A5). unfold only_changes.
  repeat (split; [assumption|]). intros c.
  destruct (A5 c) as (C1 & C2 & C3 & C4).
  repeat (split; [assumption|]). intros k Hk. apply C4.
  intros Hin. apply Hk. now apply Hi.
Qed.

Lemma setattr_class_only_changes c d f s :
  only_changes [d] s (fst (setattr_class c d f s)).
Proof.
  unfold setattr_class. destruct (Nat.eqb_spec c object_cid) as [E|E];
    [apply only_changes_refl|].
  cbn [fst]. unfold only_changes.
  split; [reflexivity|]. split; [reflexivity|]. split; [reflexivity|].
  split.
  - apply store_class_attr_other. unfold object_cid in *. congruence.
  - intros c'. destruct (Nat.eq_dec c' c) as [->|Hne].
    + rewrite store_class_attr_same. simpl.
      repeat (split; [reflexivity|]). intros k Hk.
      apply od_get_set_other. intros ->. apply Hk. now left.
    + rewrite store_class_attr_other by assumption.
      repeat split.
Qed.

Lemma inject_only_changes d cb obj s :
  only_changes [d] s (fst (inject d cb obj s)).
Proof.
  destruct obj; try apply only_changes_refl. simpl.
  destruct (od_get d cb); [apply setattr_class_only_changes|].
  apply only_changes_refl.
Qed.

Lemma for_each_preserves {A} (R : state -> state -> Prop)
    (step : A -> state -> state * result unit) l s :
  (forall s0, R s0 s0) ->
  (forall s1 s2 s3, R s1 s2 -> R s2 s3 -> R s1 s3) ->
  (forall x s0, R s0 (fst (step x s0))) ->
  R s (fst (for_each step l s)).
Proof.
  intros Hrefl Htrans Hstep. revert s.
  induction l as [|x l IH]; intros s; simpl; [apply Hrefl|].
  pose proof (Hstep x s) as Hx.
  destruct (step x s) as [s1 [[]|e]]; simpl in Hx; [|exact Hx].
  exact (Htrans _ _ _ Hx (IH s1)).
Qed.

Lemma add_to_objects_only_changes fuel m d cb recurse s :
  only_changes [d] s (fst (_add_to_objects fuel m d cb recurse s)).
Proof.
  unfold _add_to_objects. revert m s.
  induction fuel as [|fuel IH]; intros m s; cbn [_module_attrs].
  - apply only_changes_refl.
  - apply (for_each_preserves (only_changes [d])).
    + apply only_changes_refl.
    + apply only_changes_trans.
    + intros obj s0. unfold visit.
      destruct (pred_default d obj s0) as [b|e]; [|apply only_changes_refl].
      assert (Hb : only_changes [d] s0
                     (fst (if b then inject d cb obj s0 else (s0, Ok tt)))).
      { destruct b; [apply inject_only_changes | apply only_changes_refl]. }
      destruct (if b then inject d cb obj s0 else (s0, Ok tt))
        as [s1 [[]|e]]; cbn [fst] in *; [|exact Hb].
      destruct obj; try exact Hb.
      destruct recurse; [|exact Hb].
      destruct (od_get "__package__" (mdict (modules s1 m0))); [|exact Hb].
      destruct (py_is v (VModule m)); [|exact Hb].
      exact (only_changes_trans _ _ _ _ Hb (IH m0 s1)).
Qed.

Lemma add_each_only_changes fuel m cb recurse ds s :
  only_changes ds s (fst (add_each fuel m cb recurse ds s)).
Proof.
  revert s. induction ds as [|d ds IH]; intros s; cbn [add_each].
  - apply only_changes_refl.
  - pose proof (add_to_objects_only_changes fuel m d cb recurse s) as Hd.
    apply (only_changes_incl [d] (d :: ds)) in Hd;
      [|intros k [<-|[]]; now left].
    destruct (_add_to_objects fuel m d cb recurse s) as [s1 [[]|e]];
      cbn [fst] in *; [|exact Hd].
    apply (only_changes_trans _ _ _ _ Hd).
    apply (only_changes_incl ds (d :: ds)); [|apply IH].
    intros k Hk. now right.
Qed.

(** X11: whatever its argument, with or without recursion and whether it
    ends normally or raises, [add_dunders_to_module] leaves the modules,
    [sys.modules], the registry and the class [object] as they were, keeps
    the name, bases and slots of every class, and changes in no class an
    attribute whose name is not in the behaviour list. *)
Theorem add_dunders_to_module_frame
    (fuel : nat) (x : value) (dunders : option (list string))
    (callbacks : option (odict value)) (recurse : bool) (s : state) :
  let ds := match dunders with Some d => d | None => default_dunders end in
  let s' := fst (add_dunders_to_module fuel x dunders callbacks recurse s) in
  modules s' = modules s
  /\ sys_modules s' = sys_modules s
  /\ dunders_to_funcs s' = dunders_to_funcs s
  /\ classes s' object_cid = classes s object_cid
  /\ forall c,
       cname (classes s' c) = cname (classes s c)
       /\ cmro (classes s' c) = cmro (classes s c)
       /\ cslots (classes s' c) = cslots (classes s c)
       /\ forall k, ~ In k ds ->
            od_get k (cdict (classes s' c)) = od_get k (cdict (classes s c)).
Proof.
  intros ds s'. change (only_changes ds s s'). unfold s'.
  destruct x; try apply only_changes_refl.
  - simpl. destruct (od_get s0 (sys_modules s)); [|apply only_changes_refl].
    apply add_each_only_changes.
  - apply add_each_only_changes.
Qed.

(** A pass for one name leaves what the classes resolve other names to. *)
Lemma injected_other_names scope d f base s0 s c k :
  injected scope d f base s0 s -> k <> d ->
  type_lookup s c k = type_lookup s0 c k.
Proof.
  intros Hi Hk. unfold type_lookup, mro.
  rewrite (injected_cmro scope d f base s0 s c Hi).
  generalize (c :: cmro (classes s0 c)). intros l.
  destruct Hi as (_ & _ & _ & H).
  induction l as [|x l IH]; simpl; [reflexivity|].
  assert (E : od_get k (cdict (classes s x)) = od_get k (cdict (classes s0 x))).
  { destruct (H x) as [->|(_ & _ & _ & ->)]; [reflexivity|].
    simpl. apply od_get_set_other. congruence. }
  now rewrite E, IH.
Qed.

Lemma injected_object_same scope d f base s0 s :
  injected scope d f base s0 s ->
  classes s object_cid = classes s0 object_cid.
Proof.
  intros (_ & _ & _ & H).
  destruct (H object_cid) as [E|(_ & Hc & _)]; [exact E | contradiction].
Qed.

(** When no class of the list resolves the name to the default of
    [object], the loop selects nothing: no class changes and the mapping is
    not consulted. *)
Lemma no_selection sub m d cb base l s :
  type_lookup s object_cid d = Some base ->
  (forall c, In (VClass c) l ->
     exists mine, type_lookup s c d = Some mine /\ mine <> base) ->
  for_each (visit sub m (pred_default d) false (inject d cb)) l s = (s, Ok tt).
Proof.
  intros Hobj. induction l as [|obj l IH]; intros Hl; [reflexivity|].
  cbn [for_each].
  assert (E : visit sub m (pred_default d) false (inject d cb) obj s
              = (s, Ok tt)).
  { unfold visit. destruct obj; try reflexivity.
    destruct (Hl c (or_introl eq_refl)) as (mine & Hm & Hne).
    unfold pred_default, getattr_class. rewrite Hm, Hobj. cbn [bind].
    destruct (py_is mine base) eqn:Hb; [|reflexivity].
    apply py_is_true in Hb. contradiction. }
  rewrite E. apply IH. intros c Hin. apply Hl. now right.
Qed.

Lemma add_each_recursion_never_enters (n : nat) (m : mid) (cb : odict value)
    ds :
  forall s,
  (forall sub, In (VModule sub) (od_values (mdict (modules s m))) ->
     exists pkg, od_get "__package__" (mdict (modules s sub)) = Some pkg
                 /\ forall m', pkg <> VModule m') ->
  add_each (S n) m cb true ds s = add_each (S n) m cb false ds s.
Proof.
  induction ds as [|d ds IH]; intros s Hpkg; [reflexivity|].
  cbn [add_each]. rewrite (recursion_never_enters n m d cb s Hpkg).
  pose proof (add_to_objects_only_changes (S n) m d cb false s) as Hoc.
  destruct (_add_to_objects (S n) m d cb false s) as [s1 [[]|e]];
    [|reflexivity].
  cbn [fst] in Hoc. destruct Hoc as (Hmod & _).
  apply IH. now rewrite Hmod.
Qed.

(** X14: when the [__package__] of every module bound in the module is
    something other than a module object (a string or [None], as the import
    system sets it), [add_dunders_to_module] with [recurse=True] does
    exactly what it does with [recurse=False]: no submodule is entered. *)
Theorem recurse_flag_without_effect
    (n : nat) (m : mid) (dunders : option (list string))
    (callbacks : option (odict value)) (s : state) :
  (forall sub, In (VModule sub) (od_values (mdict (modules s m))) ->
     exists pkg, od_get "__package__" (mdict (modules s sub)) = Some pkg
                 /\ forall m', pkg <> VModule m') ->
  add_dunders_to_module (S n) (VModule m) dunders callbacks true s
  = add_dunders_to_module (S n) (VModule m) dunders callbacks false s.
Proof.
  intros Hpkg. unfold add_dunders_to_module, add_dunders_to_module_obj.
  now apply add_each_recursion_never_enters.
Qed.

Lemma recurse_flag_without_effect_witness :
  add_dunders_to_module 2 (VModule 0) None None true Fixtures.pkg_state
  = add_dunders_to_module 2 (VModule 0) None None false Fixtures.pkg_state.
Proof.
  apply (recurse_flag_without_effect 1 0 None None Fixtures.pkg_state).
  simpl. intros sub [H|[H|[H|[]]]]; try discriminate H.
  injection H as <-. exists (VStr "pkg"). split; [reflexivity|].
  intros m' H. discriminate H.
Defined.

(** X15: the decorator that [add_dunders] returns when it is called without
    a class and without a mapping looks the registry up when it is applied:
    applied in a state whose registry binds [name] to [f], it installs [f],
    whatever the registry held when the decorator was made. *)
Theorem deferred_decorator_reads_registry_late
    (s0 s : state) (c : cid) (name : string) (f : value) :
  c <> object_cid ->
  od_get name (dunders_to_funcs s) = Some f ->
  exists dec,
    add_dunders None (Some [name]) None s0 = (s0, Ok (Decorator dec))
    /\ dec c s = (store_class_attr c name f s, Ok c)
    /\ type_lookup (fst (dec c s)) c name = Some f.
Proof.
  intros Hc Hf. exists (dunder_decorator (Some [name]) None).
  assert (E : dunder_decorator (Some [name]) None c s
              = (store_class_attr c name f s, Ok c)).
  { unfold dunder_decorator. cbn [set_dunders].
    now rewrite Hf, setattr_class_user. }
  split; [reflexivity|]. split; [exact E|].
  rewrite E. apply store_class_attr_lookup.
Qed.

Lemma deferred_decorator_reads_registry_late_witness :
  exists dec,
    add_dunders None (Some ["__repr__"]) None Fixtures.test_state
    = (Fixtures.test_state, Ok (Decorator dec))
    /\ type_lookup
         (fst (dec 1 (register "__repr__" (VFun (UserFun 7))
                        Fixtures.test_state))) 1 "__repr__"
       = Some (VFun (UserFun 7)).
Proof.
  assert (Hc : 1 <> object_cid) by discriminate.
  destruct (deferred_decorator_reads_registry_late Fixtures.test_state
              (register "__repr__" (VFun (UserFun 7)) Fixtures.test_state)
              1 "__repr__" (VFun (UserFun 7)) Hc eq_refl)
    as (dec & Hmk & _ & Hl).
  exists dec. split; [exact Hmk | exact Hl].
Defined.

(** X16: what a class binds after [add_dunders] depends on which names the
    behaviour list holds, not on their order or on repetitions: two lists
    with the same names, all of them in the mapping, leave every attribute
    of the class with the same value. *)
Theorem add_dunders_order_irrelevant
    (s : state) (c : cid) (ds ds' : list string)
    (callbacks : option (odict value)) :
  let cb := match callbacks with Some m => m | None => dunders_to_funcs s end in
  c <> object_cid ->
  (forall d, In d ds -> od_get d cb <> None) ->
  (forall d, In d ds <-> In d ds') ->
  forall k,
    od_get k (cdict (classes
                       (fst (add_dunders (Some c) (Some ds) callbacks s)) c))
    = od_get k (cdict (classes
                         (fst (add_dunders (Some c) (Some ds') callbacks s)) c)).
Proof.
  intros cb Hc Hall Hsame k.
  assert (Hall' : forall d, In d ds' -> od_get d cb <> None).
  { intros d Hd. apply Hall. now apply Hsame. }
  destruct (set_dunders_present c cb ds s Hc Hall) as (s1 & R1 & G1 & _).
  destruct (set_dunders_present c cb ds' s Hc Hall') as (s2 & R2 & G2 & _).
  unfold add_dunders, dunder_decorator. fold cb. rewrite R1, R2.
  cbn [fst]. rewrite G1, G2.
  destruct (existsb (String.eqb k) ds) eqn:E1;
    destruct (existsb (String.eqb k) ds') eqn:E2; try reflexivity.
  - apply existsb_eqb_In in E1. apply existsb_eqb_not_In in E2.
    exfalso. apply E2. now apply Hsame.
  - apply existsb_eqb_In in E2. apply existsb_eqb_not_In in E1.
    exfalso. apply E1. now apply Hsame.
Qed.

Lemma add_dunders_order_irrelevant_witness :
  od_get "__eq__"
    (cdict (classes (fst (add_dunders (Some 1) (Some ["__repr__"; "__eq__"])
                            None Fixtures.test_state)) 1))
  = od_get "__eq__"
      (cdict (classes (fst (add_dunders (Some 1)
                              (Some ["__eq__"; "__repr__"; "__eq__"])
                              None Fixtures.test_state)) 1)).
Proof.
  assert (Hc : 1 <> object_cid) by discriminate.
  apply (add_dunders_order_irrelevant Fixtures.test_state 1
           ["__repr__"; "__eq__"] ["__eq__"; "__repr__"; "__eq__"] None Hc).
  - intros d [<-|[<-|[]]]; discriminate.
  - intros d. simpl. tauto.
Defined.

(** X17: for an instance whose type declares no slots, [_obj_attrs] is the
    list of the keys of its [__dict__] and [_obj_attr_vals] never raises: it
    returns the values of [__dict__] in the same order, also for a name that
    the class defines as well. *)
Theorem obj_attr_vals_of_dict_instance (s : state) (o : pyobject) :
  slots_of s o = None ->
  (forall k, type_lookup s (oclass o) k <> Some VMember) ->
  NoDup (od_keys (odict_ o)) ->
  _obj_attrs s o = od_keys (odict_ o)
  /\ _obj_attr_vals s o = Ok (od_values (odict_ o)).
Proof.
  intros Hs Hm Hn. split.
  - unfold _obj_attrs. now rewrite Hs.
  - apply obj_attr_vals_own. now apply dict_instance_own_values.
Qed.

Lemma obj_attr_vals_of_dict_instance_witness :
  _obj_attr_vals Fixtures.test_state (Fixtures.instance 3 (Fixtures.ab 3 4))
  = Ok [VInt 3; VInt 4].
Proof.
  assert (Hm : forall k, type_lookup Fixtures.test_state 3 k <> Some VMember).
  { intros k. unfold type_lookup. simpl.
    destruct (String.eqb k "a"); [discriminate|].
    destruct (String.eqb k "b"); [discriminate|].
    destruct (String.eqb k "__init__"); [discriminate|].
    destruct (String.eqb k "__repr__"); [discriminate|].
    destruct (String.eqb k "__eq__"); [discriminate|].
    destruct (String.eqb k "__hash__"); discriminate. }
  assert (Hn : NoDup (od_keys (odict_ (Fixtures.instance 3 (Fixtures.ab 3 4)))))
    by nodup_strings.
  exact (proj2 (obj_attr_vals_of_dict_instance Fixtures.test_state
                  (Fixtures.instance 3 (Fixtures.ab 3 4)) eq_refl Hm Hn)).
Defined.

(** ** The default equality, field by field *)









(** ** A behaviour name that the mapping lacks *)

Lemma for_each_raises {A} (P : exn -> Prop)
    (step : A -> state -> state * result unit) l s e :
  (forall x s0 e0, snd (step x s0) = Raise e0 -> P e0) ->
  snd (for_each step l s) = Raise e -> P e.
Proof.
  intros Hstep. revert s. induction l as [|x l IH]; intros s; simpl;
    [discriminate|].
  pose proof (Hstep x s) as Hx.
  destruct (step x s) as [s1 [[]|e0]]; simpl in *.
  - apply IH.
  - intros [= <-]. now apply Hx.
Qed.

Lemma pred_default_raises d obj s e :
  pred_default d obj s = Raise e -> e = AttributeError d.
Proof.
  destruct obj; simpl; try discriminate.
  unfold getattr_class.
  destruct (type_lookup s c d); simpl; [|now intros [= <-]].
  destruct (type_lookup s object_cid d); simpl; [discriminate|].
  now intros [= <-].
Qed.

(** The errors that a pass for a name absent from the mapping can raise. *)
Lemma add_to_objects_absent_errors fuel m d cb recurse s e :
  od_get d cb = None ->
  snd (_add_to_objects fuel m d cb recurse s) = Raise e ->
  e = KeyError d \/ e = AttributeError d
  \/ e = AttributeError "__package__" \/ e = RecursionError.
Proof.
  intros Hd. unfold _add_to_objects. revert m s e.
  induction fuel as [|fuel IH]; intros m s e; cbn [_module_attrs].
  - simpl. intros [= <-]. auto.
  - apply (for_each_raises
             (fun e => e = KeyError d \/ e = AttributeError d
                       \/ e = AttributeError "__package__"
                       \/ e = RecursionError)).
    intros obj s0 e0. unfold visit.
    destruct (pred_default d obj s0) as [b|e1] eqn:Hp.
    2:{ simpl. intros [= <-]. right. left.
        exact (pred_default_raises _ _ _ _ Hp). }
    assert (Hb : forall e1,
               snd (if b then inject d cb obj s0 else (s0, Ok tt)) = Raise e1 ->
               e1 = KeyError d).
    { destruct b; [|discriminate]. destruct obj; simpl; try discriminate.
      rewrite Hd. simpl. now intros e1 [= <-]. }
    destruct (if b then inject d cb obj s0 else (s0, Ok tt))
      as [s1 [[]|e1]]; simpl in Hb.
    2:{ simpl. intros [= <-]. left. now apply Hb. }
    destruct obj; try discriminate.
    destruct recurse; [|discriminate].
    destruct (od_get "__package__" (mdict (modules s1 m0)));
      [|simpl; intros [= <-]; auto].
    destruct (py_is v (VModule m)); [apply IH | discriminate].
Qed.

(** Every object is examined without error when [object] implements the
    behaviour and every class of the list has the attribute. *)
Lemma pred_default_total d base l s :
  od_get d (cdict (classes s object_cid)) = Some base ->
  (forall c, In (VClass c) l -> type_lookup s c d <> None) ->
  forall obj, In obj l -> exists b, pred_default d obj s = Ok b.
Proof.
  intros Hobj Hres obj Hin.
  destruct obj; try (exists false; reflexivity).
  specialize (Hres c Hin). unfold pred_default, getattr_class.
  destruct (type_lookup s c d) as [mine|]; [|congruence].
  unfold type_lookup at 1, mro. cbn [mro_lookup]. rewrite Hobj.
  simpl. eauto.
Qed.

(** C7, amended: [add_dunders] on a class other than [object] raises
    [KeyError] at the first name that the mapping lacks, and the names
    before it stay installed.  [add_dunders_to_module] looks a name up only
    for a class it has selected: the pass for a name that the mapping lacks
    changes no class, and whatever it raises, [KeyError] for the name or an
    error of the traversal itself, what the names before it installed stays
    in place; when it raises nothing the call goes on with the names after
    it.  Without recursion, for a behaviour that [object] implements with a
    slot wrapper and that every class bound in the module has, the pass
    raises [KeyError] exactly when some bound class is selected. *)
Theorem absent_name_lookup_error
    (s : state) (callbacks : option (odict value))
    (pre : list string) (d : string) (rest : list string) :
  let cb := match callbacks with Some m => m | None => dunders_to_funcs s end in
  od_get d cb = None ->
  (forall p, In p pre -> od_get p cb <> None) ->
  (forall c, c <> object_cid ->
     exists s1,
       add_dunders (Some c) (Some (pre ++ d :: rest)) callbacks s
       = (s1, Raise (KeyError d))
       /\ forall k, od_get k (cdict (classes s1 c))
                    = if existsb (String.eqb k) pre then od_get k cb
                      else od_get k (cdict (classes s c)))
  /\ (forall fuel m recurse s1,
        add_dunders_to_module fuel (VModule m) (Some pre) callbacks recurse s
        = (s1, Ok tt) ->
        exists r,
          _add_to_objects fuel m d cb recurse s1 = (s1, r)
          /\ add_dunders_to_module fuel (VModule m) (Some (pre ++ d :: rest))
               callbacks recurse s
             = match r with
               | Raise e => (s1, Raise e)
               | Ok _ => add_each fuel m cb recurse rest s1
               end
          /\ forall e, r = Raise e ->
               e = KeyError d \/ e = AttributeError d
               \/ e = AttributeError "__package__" \/ e = RecursionError)
  /\ (forall n m s1,
        od_get d (cdict (classes s1 object_cid)) = Some (VFun (ObjectSlot d)) ->
        (forall c, In (VClass c) (od_values (mdict (modules s1 m))) ->
                   type_lookup s1 c d <> None) ->
        _add_to_objects (S n) m d cb false s1
        = (s1, if existsb (selects d s1) (od_values (mdict (modules s1 m)))
               then Raise (KeyError d) else Ok tt)).
Proof.
  intros cb Hd Hpre. split; [|split].
  - intros c Hc.
    destruct (set_dunders_present c cb pre s Hc Hpre) as (s1 & Hrun & Hget & _).
    exists s1. split; [|exact Hget].
    unfold add_dunders, dunder_decorator. fold cb.
    rewrite set_dunders_app, Hrun. simpl. now rewrite Hd.
  - intros fuel m recurse s1 Hrun.
    pose proof (add_to_objects_absent fuel m d cb recurse s1 Hd) as Hfst.
    pose proof (add_to_objects_absent_errors fuel m d cb recurse s1) as Herr.
    destruct (_add_to_objects fuel m d cb recurse s1) as [s1' r] eqn:E.
    simpl in Hfst. subst s1'. exists r. split; [reflexivity|]. split.
    + change (add_each fuel m cb recurse pre s = (s1, Ok tt)) in Hrun.
      change (add_each fuel m cb recurse (pre ++ d :: rest) s
              = match r with
                | Raise e => (s1, Raise e)
                | Ok _ => add_each fuel m cb recurse rest s1
                end).
      rewrite add_each_app, Hrun. cbn [add_each]. rewrite E.
      now destruct r as [[]|e].
    + intros e ->. now apply Herr.
  - intros n m s1 Hobj Hres. unfold _add_to_objects. simpl.
    apply flat_absent; [exact Hd|].
    exact (pred_default_total d _ _ s1 Hobj Hres).
Qed.

Lemma absent_name_lookup_error_witness :
  (exists s1,
     add_dunders (Some 1) (Some ["__repr__"; "__eq__"])
       (Some [("__repr__", VFun Autorepr)]) Fixtures.test_state
     = (s1, Raise (KeyError "__eq__"))
     /\ od_get "__repr__" (cdict (classes s1 1)) = Some (VFun Autorepr))
  /\ _add_to_objects 1 0 "__eq__" [("__repr__", VFun Autorepr)] false
       Fixtures.test_state
     = (Fixtures.test_state, Raise (KeyError "__eq__")).
Proof.
  assert (Hd : od_get "__eq__" [("__repr__", VFun Autorepr)] = None)
    by reflexivity.
  assert (Hp : forall p, In p ["__repr__"] ->
                 od_get p [("__repr__", VFun Autorepr)] <> None).
  { intros p [<-|[]]. discriminate. }
  assert (Hc : 1 <> object_cid) by discriminate.
  destruct (absent_name_lookup_error Fixtures.test_state
              (Some [("__repr__", VFun Autorepr)])
              ["__repr__"] "__eq__" [] Hd Hp) as (H1 & _ & H3).
  split.
  - destruct (H1 1 Hc) as (s1 & Hrun & Hget).
    exists s1. split; [exact Hrun | exact (Hget "__repr__")].
  - apply (H3 0 0 Fixtures.test_state eq_refl).
    simpl. intros c [H|[H|[H|[]]]]; try discriminate H.
    injection H as <-. discriminate.
Defined.

(** ** One pass of module-wide injection, whatever its outcome *)

Lemma store_class_attr_get_any c c0 k v s k' :
  od_get k' (cdict (classes (store_class_attr c k v s) c0))
  = if Nat.eqb c0 c
    then (if String.eqb k' k then Some v else od_get k' (cdict (classes s c0)))
    else od_get k' (cdict (classes s c0)).
Proof.
  destruct (Nat.eqb_spec c0 c) as [->|Hne].
  - apply store_class_attr_get.
  - now rewrite store_class_attr_other.
Qed.

Section Pass.
Variable scope : cid -> Prop.
Variables (d : string) (f base : value) (s0 : state).
Variables (cb : odict value) (m : mid).
Variable sub : mid -> state -> state * result unit.
Hypothesis f_not_base : f <> base.
Hypothesis object_has : od_get d (cdict (classes s0 object_cid)) = Some base.
Hypothesis mapping_has : od_get d cb = Some f.

Let inj := injected scope d f base s0.
Let step := visit sub m (pred_default d) false (inject d cb).

(** What one turn of the loop does with a class. *)
Lemma step_class s c :
  inj s ->
  (exists e, step (VClass c) s = (s, Raise e))
  \/ (step (VClass c) s = (s, Ok tt)
      /\ exists mine, type_lookup s c d = Some mine /\ mine <> base)
  \/ (step (VClass c) s = (store_class_attr c d f s, Ok tt)
      /\ type_lookup s c d = Some base /\ c <> object_cid).
Proof.
  intros Hi.
  pose proof (injected_object scope d f base s0 object_has s Hi) as Hobj.
  unfold step, visit, pred_default, getattr_class.
  destruct (type_lookup s c d) as [mine|] eqn:Hm; cbn [bind];
    [|left; eauto].
  rewrite Hobj. cbn [bind].
  destruct (py_is mine base) eqn:Hb.
  - apply py_is_true in Hb. subst mine.
    unfold inject. rewrite mapping_has. unfold setattr_class.
    destruct (Nat.eqb_spec c object_cid) as [E|E]; [left; eauto|].
    right. right. auto.
  - right. left. split; [reflexivity|]. exists mine. split; [reflexivity|].
    intros ->. assert (H : py_is base base = true) by now apply py_is_true.
    congruence.
Qed.

Lemma step_other s obj :
  (forall c, obj <> VClass c) -> step obj s = (s, Ok tt).
Proof.
  intros H. unfold step, visit.
  destruct obj; try reflexivity. now destruct (H c).
Qed.

(** One store changes what a class resolves [d] to only into [f]. *)
Lemma store_lookup_up s c c' v :
  type_lookup s c' d = Some v ->
  type_lookup (store_class_attr c d f s) c' d = Some v
  \/ type_lookup (store_class_attr c d f s) c' d = Some f.
Proof.
  unfold type_lookup, mro.
  assert (Hm : cmro (classes (store_class_attr c d f s) c')
               = cmro (classes s c')).
  { simpl. now destruct (Nat.eqb c' c) eqn:E;
      [apply Nat.eqb_eq in E; subst|]. }
  rewrite Hm. generalize (c' :: cmro (classes s c')). intros l.
  induction l as [|x l IH]; simpl; [discriminate|].
  destruct (Nat.eqb_spec x c) as [->|Hne].
  - simpl. rewrite od_get_set_same. now right.
  - destruct (od_get d (cdict (classes s x))); [now left | exact IH].
Qed.

(** The loop over a list of objects, whether it ends normally or not:
    only classes of the list that resolved [d] to [base] are changed, what a
    class resolves [d] to changes only into [f], an own entry [f] stays, and
    a class that is not in the list, or resolves [d] to something else than
    [base], is left as it is. *)
Lemma pass_any l :
  forall s,
  inj s ->
  (forall c, In (VClass c) l -> scope c) ->
  inj (fst (for_each step l s))
  /\ (forall c v, type_lookup s c d = Some v ->
        type_lookup (fst (for_each step l s)) c d = Some v
        \/ type_lookup (fst (for_each step l s)) c d = Some f)
  /\ (forall c, od_get d (cdict (classes s c)) = Some f ->
        od_get d (cdict (classes (fst (for_each step l s)) c)) = Some f)
  /\ (forall c,
        ~ In (VClass c) l
        \/ (exists v, type_lookup s c d = Some v /\ v <> base) ->
        classes (fst (for_each step l s)) c = classes s c).
Proof.
  induction l as [|obj l IH]; intros s Hi Hsc.
  - simpl. split; [assumption|]. split; [auto|]. split; auto.
  - assert (Hsc' : forall c, In (VClass c) l -> scope c).
    { intros c Hin. apply Hsc. now right. }
    destruct (match obj with VClass c => Some c | _ => None end)
      as [c|] eqn:Hobj.
    + destruct obj; try discriminate. injection Hobj as ->.
      cbn [for_each].
      destruct (step_class s c Hi)
        as [[e E]|[[E (mine & Hm & Hne)]|(E & Hb & Hc)]]; rewrite E.
      * simpl. split; [assumption|]. split; [auto|]. split; auto.
      * destruct (IH s Hi Hsc') as (I1 & I2 & I3 & I4).
        split; [exact I1|]. split; [exact I2|]. split; [exact I3|].
        intros c0 [Hout|Hv]; apply I4; [|now right].
        left. intros Hin. apply Hout. now right.
      * assert (Hi1 : inj (store_class_attr c d f s)).
        { apply (injected_store scope d f base s0 f_not_base); auto.
          apply Hsc. now left. }
        destruct (IH _ Hi1 Hsc') as (I1 & I2 & I3 & I4).
        split; [exact I1|]. split; [|split].
        -- intros c0 v Hv.
           destruct (store_lookup_up s c c0 v Hv) as [H1|H1];
             destruct (I2 c0 _ H1) as [H2|H2]; auto.
        -- intros c0 Hf. apply I3. rewrite (store_class_attr_get_any c c0).
           destruct (Nat.eqb c0 c); [|exact Hf].
           destruct (String.eqb d d); [reflexivity | exact Hf].
        -- intros c0 Hc0.
           assert (Hne : c0 <> c).
           { intros ->. destruct Hc0 as [Hout|(v & Hv & Hvb)].
             - apply Hout. now left.
             - congruence. }
           rewrite I4.
           ++ now apply store_class_attr_other.
           ++ destruct Hc0 as [Hout|(v & Hv & Hvb)].
              ** left. intros Hin. apply Hout. now right.
              ** right. destruct (store_lookup_up s c c0 v Hv) as [H1|H1];
                   [exists v | exists f]; split; auto.
    + assert (E : step obj s = (s, Ok tt)).
      { apply step_other. intros c ->. discriminate. }
      cbn [for_each]. rewrite E.
      destruct (IH s Hi Hsc') as (I1 & I2 & I3 & I4).
      split; [exact I1|]. split; [exact I2|]. split; [exact I3|].
      intros c0 [Hout|Hv]; apply I4; [|now right].
      left. intros Hin. apply Hout. now right.
Qed.
End Pass.

Section PassOk.
Variable scope : cid -> Prop.
Variables (d : string) (f base : value) (s0 : state).
Variables (cb : odict value) (m : mid).
Variable sub : mid -> state -> state * result unit.
Hypothesis f_not_base : f <> base.
Hypothesis object_has : od_get d (cdict (classes s0 object_cid)) = Some base.
Hypothesis mapping_has : od_get d cb = Some f.

Let inj := injected scope d f base s0.
Let step := visit sub m (pred_default d) false (inject d cb).

(** A pass that ends normally: every class of the list that resolved [d] to
    [base] at the start resolves it to [f], and no class of the list
    resolves it to [base] any more. *)
Lemma pass_ok l :
  forall s s',
  inj s ->
  (forall c, In (VClass c) l -> scope c) ->
  for_each step l s = (s', Ok tt) ->
  (forall c, In (VClass c) l -> type_lookup s0 c d = Some base ->
             type_lookup s' c d = Some f)
  /\ (forall c, In (VClass c) l ->
        exists mine, type_lookup s' c d = Some mine /\ mine <> base).
Proof.
  induction l as [|obj l IH]; intros s s' Hi Hsc Hrun.
  - split; intros c [].
  - assert (Hsc' : forall c, In (VClass c) l -> scope c).
    { intros c Hin. apply Hsc. now right. }
    cbn [for_each] in Hrun.
    destruct (match obj with VClass c => Some c | _ => None end)
      as [c|] eqn:Hobj.
    + destruct obj; try discriminate. injection Hobj as ->.
      fold step in Hrun.
      destruct (step_class scope d f base s0 cb m sub object_has mapping_has
                  s c Hi)
        as [[e E]|[[E (mine & Hm & Hne)]|(E & Hb & Hc)]];
        fold step in E; rewrite E in Hrun; [discriminate| |].
      * destruct (IH s s' Hi Hsc' Hrun) as [A1 A2].
        pose proof (pass_any scope d f base s0 cb m sub f_not_base object_has
                      mapping_has l s Hi Hsc') as (_ & Hup & _).
        fold step in Hup. rewrite Hrun in Hup. cbn [fst] in Hup.
        assert (Hc' : exists mine', type_lookup s' c d = Some mine'
                                    /\ mine' <> base).
        { destruct (Hup c mine Hm) as [H|H]; eauto. }
        split.
        -- intros c0 [[= <-]|Hin] H0; [|now apply A1].
           destruct (injected_type_lookup_up scope d f base s0 s c base Hi H0)
             as [H|H]; [congruence|].
           destruct (Hup c f H) as [H'|H']; exact H'.
        -- intros c0 [[= <-]|Hin]; [exact Hc' | now apply A2].
      * assert (Hi1 : inj (store_class_attr c d f s)).
        { apply (injected_store scope d f base s0 f_not_base); auto.
          apply Hsc. now left. }
        destruct (IH _ s' Hi1 Hsc' Hrun) as [A1 A2].
        pose proof (pass_any scope d f base s0 cb m sub f_not_base object_has
                      mapping_has l _ Hi1 Hsc') as (_ & Hup & _).
        fold step in Hup. rewrite Hrun in Hup. cbn [fst] in Hup.
        assert (Hf : type_lookup s' c d = Some f).
        { destruct (Hup c f (store_class_attr_lookup c d f s)); assumption. }
        split.
        -- intros c0 [[= <-]|Hin] H0; [exact Hf | now apply A1].
        -- intros c0 [[= <-]|Hin]; [eauto | now apply A2].
    + assert (E : step obj s = (s, Ok tt)).
      { apply (step_other d cb m sub). intros c ->. discriminate. }
      fold step in Hrun. rewrite E in Hrun.
      destruct (IH s s' Hi Hsc' Hrun) as [A1 A2].
      split.
      * intros c [->|Hin]; [discriminate | now apply A1].
      * intros c [->|Hin]; [discriminate | now apply A2].
Qed.
End PassOk.




(** X12: let [d] be a behaviour that [object] implements with a slot wrapper
    and that the mapping maps to another function.  Once a module-wide
    injection of [d] without recursion has ended normally, a second pass
    for [d] selects no class: it ends normally and changes nothing, whatever
    mapping it is given, even one that lacks [d] or maps it to another
    function. *)
Theorem module_injection_second_pass
    (m : mid) (d : string) (cb : odict value) (f : value)
    (n : nat) (s s' : state) :
  od_get d cb = Some f ->
  f <> VFun (ObjectSlot d) ->
  od_get d (cdict (classes s object_cid)) = Some (VFun (ObjectSlot d)) ->
  _add_to_objects (S n) m d cb false s = (s', Ok tt) ->
  forall cb' n', _add_to_objects (S n') m d cb' false s' = (s', Ok tt).
Proof.
  intros Hcb Hne Hobj Hrun cb' n'.
  set (base := VFun (ObjectSlot d)) in *.
  set (bound := fun c => In (VClass c) (od_values (mdict (modules s m)))).
  set (sub := fun sub0 => _module_attrs n sub0 (pred_default d) false
                            (inject d cb)).
  change (for_each (visit sub m (pred_default d) false (inject d cb))
            (od_values (mdict (modules s m))) s = (s', Ok tt)) in Hrun.
  pose proof (injected_refl bound d f base s) as Hrefl.
  destruct (pass_any bound d f base s cb m sub Hne Hobj Hcb
              (od_values (mdict (modules s m))) s Hrefl (fun c H => H))
    as (Hinj & _).
  rewrite Hrun in Hinj. cbn [fst] in Hinj.
  destruct (pass_ok bound d f base s cb m sub Hne Hobj Hcb
              (od_values (mdict (modules s m))) s s' Hrefl (fun c H => H) Hrun)
    as [_ Hnone].
  unfold _add_to_objects. cbn [_module_attrs].
  assert (Hmod : modules s' = modules s) by apply Hinj.
  rewrite Hmod. apply (no_selection _ m d cb' base).
  - exact (injected_object bound d f base s Hobj s' Hinj).
  - exact Hnone.
Qed.

Lemma module_injection_second_pass_witness :
  _add_to_objects 1 0 "__repr__" []  false
    (fst (_add_to_objects 1 0 "__repr__" initial_registry false
            Fixtures.hier_state))
  = (fst (_add_to_objects 1 0 "__repr__" initial_registry false
            Fixtures.hier_state), Ok tt).
Proof.
  assert (Hne : VFun Autorepr <> VFun (ObjectSlot "__repr__")) by discriminate.
  exact (module_injection_second_pass 0 "__repr__" initial_registry
           (VFun Autorepr) 0 Fixtures.hier_state
           (fst (_add_to_objects 1 0 "__repr__" initial_registry false
                   Fixtures.hier_state))
           eq_refl Hne eq_refl eq_refl [] 0).
Defined.

(** The loop of [add_dunders_to_module] over the behaviour names, without
    recursion, when it ends normally. *)
Lemma add_each_ok (n : nat) (m : mid) (cb : odict value) ds :
  forall s s',
  (forall d, In d ds ->
     od_get d (cdict (classes s object_cid)) = Some (VFun (ObjectSlot d))) ->
  (forall d, In d ds ->
     exists f, od_get d cb = Some f /\ f <> VFun (ObjectSlot d)) ->
  add_each (S n) m cb false ds s = (s', Ok tt) ->
  modules s' = modules s
  /\ classes s' object_cid = classes s object_cid
  /\ (forall c d f,
        In (VClass c) (od_values (mdict (modules s m))) -> In d ds ->
        od_get d cb = Some f ->
        type_lookup s c d = Some (VFun (ObjectSlot d))
        \/ type_lookup s c d = Some f ->
        type_lookup s' c d = Some f)
  /\ (forall c k, ~ In k ds -> type_lookup s' c k = type_lookup s c k).
Proof.
  induction ds as [|d rest IH]; intros s s' Hobjs Hmap Hrun.
  - injection Hrun as <-. split; [reflexivity|]. split; [reflexivity|].
    split; [intros c d f _ []|reflexivity].
  - destruct (Hmap d (or_introl eq_refl)) as (f & Hcb & Hne).
    pose proof (Hobjs d (or_introl eq_refl)) as Hobj.
    set (base := VFun (ObjectSlot d)) in *.
    set (bound := fun c => In (VClass c) (od_values (mdict (modules s m)))).
    set (sub := fun sub0 => _module_attrs n sub0 (pred_default d) false
                              (inject d cb)).
    set (step := visit sub m (pred_default d) false (inject d cb)).
    cbn [add_each] in Hrun.
    change (_add_to_objects (S n) m d cb false s)
      with (for_each step (od_values (mdict (modules s m))) s) in Hrun.
    destruct (for_each step (od_values (mdict (modules s m))) s)
      as [s1 [[]|e]] eqn:Hpass; [|discriminate].
    pose proof (injected_refl bound d f base s) as Hrefl.
    destruct (pass_any bound d f base s cb m sub Hne Hobj Hcb
                (od_values (mdict (modules s m))) s Hrefl (fun c H => H))
      as (Hinj & Hup & _).
    fold step in Hinj, Hup. rewrite Hpass in Hinj, Hup. cbn [fst] in Hinj, Hup.
    destruct (pass_ok bound d f base s cb m sub Hne Hobj Hcb
                (od_values (mdict (modules s m))) s s1 Hrefl (fun c H => H)
                Hpass) as [Hf _].
    assert (Hmod : modules s1 = modules s) by apply Hinj.
    assert (Hobj1 : classes s1 object_cid = classes s object_cid)
      by exact (injected_object_same bound d f base s s1 Hinj).
    assert (Hother : forall c k, k <> d ->
                       type_lookup s1 c k = type_lookup s c k).
    { intros c k Hk.
      exact (injected_other_names bound d f base s s1 c k Hinj Hk). }
    destruct (IH s1 s') as (Hmod' & Hobj' & Hall & Hframe).
    + intros d' Hd'. rewrite Hobj1. apply Hobjs. now right.
    + intros d' Hd'. apply Hmap. now right.
    + exact Hrun.
    + split; [congruence|]. split; [congruence|]. split.
      * intros c d0 f0 Hc Hd0 Hcb0 Hpre.
        assert (Hc1 : In (VClass c) (od_values (mdict (modules s1 m))))
          by now rewrite Hmod.
        destruct (string_dec d0 d) as [->|Hdd].
        -- assert (f0 = f) by congruence. subst f0.
           assert (H1 : type_lookup s1 c d = Some f).
           { destruct Hpre as [Hp|Hp].
             - now apply Hf.
             - destruct (Hup c f Hp); assumption. }
           destruct (in_dec string_dec d rest) as [Hin|Hout].
           ++ apply (Hall c d f Hc1 Hin Hcb0). now right.
           ++ now rewrite Hframe.
        -- destruct Hd0 as [E|Hin]; [congruence|].
           apply (Hall c d0 f0 Hc1 Hin Hcb0).
           now rewrite Hother.
      * intros c k Hk. rewrite Hframe.
        -- apply Hother. intros ->. apply Hk. now left.
        -- intros Hin. apply Hk. now right.
Qed.

(** X13: let every requested behaviour be one that [object] implements with
    a slot wrapper and that the mapping maps to another function.  When
    [add_dunders_to_module] without recursion ends normally, every class
    bound in the module resolves to the mapping's function each requested
    behaviour that it resolved to the default of [object] when the call was
    made. *)
Theorem module_injection_all_behaviours
    (n : nat) (m : mid) (dunders : option (list string))
    (callbacks : option (odict value)) (s s' : state) :
  let ds := match dunders with Some d => d | None => default_dunders end in
  let cb := match callbacks with Some c => c | None => dunders_to_funcs s end in
  (forall d, In d ds ->
     od_get d (cdict (classes s object_cid)) = Some (VFun (ObjectSlot d))) ->
  (forall d, In d ds ->
     exists f, od_get d cb = Some f /\ f <> VFun (ObjectSlot d)) ->
  add_dunders_to_module (S n) (VModule m) dunders callbacks false s
  = (s', Ok tt) ->
  forall c d,
    In (VClass c) (od_values (mdict (modules s m))) -> In d ds ->
    type_lookup s c d = Some (VFun (ObjectSlot d)) ->
    type_lookup s' c d = od_get d cb.
Proof.
  intros ds cb Hobjs Hmap Hrun c d Hc Hd Hdef.
  destruct (add_each_ok n m cb ds s s' Hobjs Hmap Hrun) as (_ & _ & Hall & _).
  destruct (Hmap d Hd) as (f & Hcb & _).
  rewrite Hcb. apply (Hall c d f Hc Hd Hcb). now left.
Qed.

Lemma module_injection_all_behaviours_witness :
  type_lookup
    (fst (add_dunders_to_module 1 (VModule 0) None None false
            Fixtures.hier_state)) 2 "__eq__"
  = Some (VFun Autoeq).
Proof.
  assert (Hobjs : forall d, In d default_dunders ->
            od_get d (cdict (classes Fixtures.hier_state object_cid))
            = Some (VFun (ObjectSlot d))).
  { intros d [<-|[<-|[]]]; reflexivity. }
  assert (Hmap : forall d, In d default_dunders ->
            exists f, od_get d (dunders_to_funcs Fixtures.hier_state) = Some f
                      /\ f <> VFun (ObjectSlot d)).
  { intros d [<-|[<-|[]]].
    - exists (VFun Autorepr). split; [reflexivity | discriminate].
    - exists (VFun Autoeq). split; [reflexivity | discriminate]. }
  apply (module_injection_all_behaviours 0 0 None None Fixtures.hier_state
           (fst (add_dunders_to_module 1 (VModule 0) None None false
                   Fixtures.hier_state))
           Hobjs Hmap eq_refl 2 "__eq__").
  - simpl. auto.
  - simpl. auto.
  - reflexivity.
Defined.
